(** * SSEChannel: a shallow embedding of [services/eventStreamManager/ssePubsub.ts]

    The channel of the GrowthBook proxy broadcasts server-sent events to the
    subscribed HTTP responses and keeps a bounded history for replay.

    Modelling choices.
    - JavaScript numbers that the channel computes with ([nextID], the
      options, the parsed [Last-Event-ID]) are integers of [Z]; [NaN] is the
      [None] of an [option Z].  This is exact below 2^53.
    - [Response] objects live outside the channel and are shared by
      reference: the model keeps them in a store, a [gmap] from the handle of
      a response to the calls the channel made on it, in order.
    - [Connection] objects are compared by identity (they sit in a JS [Set]):
      every connection carries the identity it was allocated with.
    - The [while] loop of [publish] is run with fuel. *)

From Stdlib Require Import ZArith String Ascii List Lia Bool DecimalString DecimalPos.
From stdpp Require Import base option list gmap strings.

Import ListNotations.
Local Open Scope Z_scope.

(** ** JavaScript primitives used by the channel *)

Module Js.

(** The values a caller hands to [publish(data?: any)].  An object
    carries the text [JSON.stringify] renders it to. *)
Inductive value : Type :=
| Undefined
| Null
| Bool (b : bool)
| Num (n : Z)
| Str (s : string)
| Object (json : string).

Definition string_nonempty (s : string) : bool :=
  match s with EmptyString => false | String _ _ => true end.

(** [ToBoolean] *)
Definition truthy (v : value) : bool :=
  match v with
  | Undefined | Null => false
  | Bool b => b
  | Num n => negb (n =? 0)
  | Str s => string_nonempty s
  | Object _ => true
  end.

(** Truthiness of a [string | undefined]. *)
Definition truthy_str (o : option string) : bool :=
  match o with
  | None => false
  | Some s => string_nonempty s
  end.

(** [typeof v === "object"]; [typeof null] is ["object"] too. *)
Definition typeof_object (v : value) : bool :=
  match v with
  | Null | Object _ => true
  | _ => false
  end.

Definition string_of_Z (n : Z) : string :=
  NilZero.string_of_int (Z.to_int n).

Definition JSON_stringify (v : value) : string :=
  match v with
  | Undefined => "undefined"
  | Null => "null"
  | Bool true => "true"
  | Bool false => "false"
  | Num n => string_of_Z n
  | Str s => s
  | Object json => json
  end.

(** [v + ""] *)
Definition to_string (v : value) : string :=
  match v with
  | Undefined => "undefined"
  | Null => "null"
  | Bool true => "true"
  | Bool false => "false"
  | Num n => string_of_Z n
  | Str s => s
  | Object _ => "[object Object]"
  end.

Definition is_newline (c : ascii) : bool :=
  (Ascii.eqb c "010" || Ascii.eqb c "013")%char.

(** [s.split(/[\r\n]+/)]: the pieces between the maximal runs of line
    breaks.  [in_run] tells that the character before was a line break,
    whose piece boundary has been emitted already. *)
Fixpoint split_from (in_run : bool) (s : string) : list string :=
  match s with
  | EmptyString => [EmptyString]
  | String c s' =>
      if is_newline c then
        if in_run then split_from true s'
        else EmptyString :: split_from true s'
      else
        match split_from false s' with
        | piece :: rest => String c piece :: rest
        | [] => [String c EmptyString]
        end
  end.

Definition split_newlines (s : string) : list string := split_from false s.

(** [l.join(sep)] *)
Fixpoint join (sep : string) (l : list string) : string :=
  match l with
  | [] => EmptyString
  | [x] => x
  | x :: rest => String.append x (String.append sep (join sep rest))
  end.

(** [l.slice(start)] for an integer [start]: a negative [start] counts
    from the end. *)
Definition slice_from {A} (start : Z) (l : list A) : list A :=
  let len := Z.of_nat (length l) in
  let k := if start <? 0 then Z.max (len + start) 0 else Z.min start len in
  drop (Z.to_nat k) l.

(** The blanks [parseInt] skips, among the ASCII characters. *)
Definition is_whitespace (c : ascii) : bool :=
  let n := nat_of_ascii c in
  ((9 <=? n) && (n <=? 13) || (n =? 32))%nat.

Fixpoint trim_start (s : string) : string :=
  match s with
  | String c s' => if is_whitespace c then trim_start s' else s
  | EmptyString => s
  end.

Definition digit_of (c : ascii) : option Z :=
  let n := nat_of_ascii c in
  if ((48 <=? n) && (n <=? 57))%nat then Some (Z.of_nat (n - 48)) else None.

(** The value of the longest prefix of decimal digits, read after the
    digits whose value is [acc]; [seen] tells whether a digit was read. *)
Fixpoint digits_prefix (seen : bool) (acc : Z) (s : string) : option Z :=
  match s with
  | String c s' =>
      match digit_of c with
      | Some d => digits_prefix true (10 * acc + d) s'
      | None => if seen then Some acc else None
      end
  | EmptyString => if seen then Some acc else None
  end.

(** [Number.parseInt(s, 10)]; [None] is [NaN]. *)
Definition parseInt10 (s : string) : option Z :=
  match trim_start s with
  | String "-" s' => Z.opp <$> digits_prefix false 0 s'
  | String "+" s' => digits_prefix false 0 s'
  | s' => digits_prefix false 0 s'
  end.

End Js.

(** ** Data model *)

Definition LF : string := String "010" EmptyString.

Infix "^^" := String.append (at level 60, right associativity).

(** An entry of a subscription list: [string | RegExp].  A regular
    expression is the predicate its [test] method computes. *)
Inductive Pattern : Type :=
| PString (s : string)
| PRegExp (test : string -> bool).

Record Request : Type := {
  last_event_id : option string;   (* req.headers["last-event-id"] *)
  remoteAddress : option string;
}.

Record Connection : Type := {
  conn_id : nat;                   (* identity of the object *)
  req : Request;
  res : nat;                       (* handle of the Response *)
  events : option (list Pattern);
}.

Record Message : Type := {
  id : Z;
  eventName : string;
  output : string;
}.

Record Options : Type := {
  pingInterval : Z;
  maxStreamDuration : Z;
  clientRetryInterval : Z;
  startId : Z;
  historySize : Z;
  rewind : Z;
}.

(** [Partial<Options>]: [None] is an omitted field. *)
Record PartialOptions : Type := {
  p_pingInterval : option Z;
  p_maxStreamDuration : option Z;
  p_clientRetryInterval : option Z;
  p_startId : option Z;
  p_historySize : option Z;
  p_rewind : option Z;
}.

(** The private fields of [SSEChannel]. *)
Record Channel : Type := {
  nextID : Z;
  clients : list Connection;       (* a Set, in insertion order *)
  messages : list Message;
  active : bool;
  pingTimer : bool;                (* whether a timer handle is held *)
  options : Options;
  verboseDebugging : bool;         (* appContext?.verboseDebugging *)
}.

(** What the channel does to a [Response]. *)
Inductive ResCall : Type :=
| ResWriteHead (status : Z)
| ResFlushHeaders
| ResWrite (chunk : string)
| ResEnd
| ResOn (event : string).

Inductive LogEntry : Type :=
| LogInfo (msg : string)
| LogWarn (msg : string).

(** The channel together with the objects around it. *)
Record World : Type := {
  chan : Channel;
  responses : gmap nat (list ResCall);   (* calls made on each Response *)
  logs : list LogEntry;
  pingRunning : bool;                    (* the interval timer is armed *)
  timeouts : list Connection;            (* pending maxStreamDuration timers *)
  allocated : nat;                       (* next fresh Connection identity *)
}.

Definition is_end (c : ResCall) : bool :=
  match c with ResEnd => true | _ => false end.

Definition calls_on (w : World) (r : nat) : list ResCall :=
  default [] (responses w !! r).

(** [res.finished] *)
Definition finished (w : World) (r : nat) : bool :=
  existsb is_end (calls_on w r).

(** ** State updates *)

Definition set_chan (f : Channel -> Channel) (w : World) : World :=
  {| chan := f (chan w); responses := responses w; logs := logs w;
     pingRunning := pingRunning w; timeouts := timeouts w;
     allocated := allocated w |}.

Definition res_call (r : nat) (c : ResCall) (w : World) : World :=
  {| chan := chan w;
     responses := <[r := calls_on w r ++ [c]]> (responses w);
     logs := logs w; pingRunning := pingRunning w; timeouts := timeouts w;
     allocated := allocated w |}.

Definition log (e : LogEntry) (w : World) : World :=
  {| chan := chan w; responses := responses w; logs := logs w ++ [e];
     pingRunning := pingRunning w; timeouts := timeouts w;
     allocated := allocated w |}.

Definition log_when (b : bool) (e : LogEntry) (w : World) : World :=
  if b then log e w else w.

Definition with_nextID (n : Z) (c : Channel) : Channel :=
  {| nextID := n; clients := clients c; messages := messages c;
     active := active c; pingTimer := pingTimer c; options := options c;
     verboseDebugging := verboseDebugging c |}.

Definition with_messages (ms : list Message) (c : Channel) : Channel :=
  {| nextID := nextID c; clients := clients c; messages := ms;
     active := active c; pingTimer := pingTimer c; options := options c;
     verboseDebugging := verboseDebugging c |}.

Definition with_clients (cs : list Connection) (c : Channel) : Channel :=
  {| nextID := nextID c; clients := cs; messages := messages c;
     active := active c; pingTimer := pingTimer c; options := options c;
     verboseDebugging := verboseDebugging c |}.

Definition with_active (b : bool) (c : Channel) : Channel :=
  {| nextID := nextID c; clients := clients c; messages := messages c;
     active := b; pingTimer := pingTimer c; options := options c;
     verboseDebugging := verboseDebugging c |}.

(** ** The channel's methods *)

(** [hasEventMatch]: the list may be missing at run time. *)
Definition pattern_matches (name : string) (pat : Pattern) : bool :=
  match pat with
  | PRegExp test => test name
  | PString s => String.eqb s name
  end.

Definition hasEventMatch (subscriptionList : option (list Pattern))
    (name : string) : bool :=
  match subscriptionList with
  | None => true
  | Some l => existsb (pattern_matches name) l
  end.

Definition is_some {A} (o : option A) : bool :=
  match o with Some _ => true | None => false end.

(** The filter of the fan-out in [publish]. *)
Definition publish_filter (evName : option string) (c : Connection) : bool :=
  negb (Js.truthy_str evName) || negb (is_some (events c))
  || hasEventMatch (events c) (default EmptyString evName).

(** The filter of the replay in [subscribe]. *)
Definition replay_filter (c : Connection) (m : Message) : bool :=
  if is_some (events c) then hasEventMatch (events c) (eventName m) else true.

(** [while (this.messages.length > this.options.historySize) this.messages.shift()] *)
Fixpoint shift_while (fuel : nat) (size : Z) (ms : list Message)
  : option (list Message) :=
  match fuel with
  | O => None
  | S fuel' =>
      if Z.of_nat (length ms) >? size then shift_while fuel' size (tail ms)
      else Some ms
  end.

(** The rendering of the payload lines in [publish]. *)
Definition data_lines (data : Js.value) : string :=
  let data := if Js.typeof_object data
              then Js.Str (Js.JSON_stringify data) else data in
  if Js.truthy data
  then Js.join LF (map (fun str => "data: " ^^ str)
                       (Js.split_newlines (Js.to_string data)))
  else EmptyString.

Definition render (i : Z) (evName : option string) (data : Js.value) : string :=
  let lines := data_lines data in
  ("id: " ^^ Js.string_of_Z i ^^ " " ^^ LF)
  ^^ (if Js.truthy_str evName
      then ("event: " ^^ default EmptyString evName) ^^ LF else EmptyString)
  ^^ (if Js.string_nonempty lines then lines else "data: ")
  ^^ (LF ^^ LF).

Definition ping_output : string := "data: " ^^ LF ^^ LF.

(** [cs.forEach((c) => c.res.<call>)] *)
Definition call_all (k : ResCall) (cs : list Connection) (w : World) : World :=
  fold_left (fun w c => res_call (res c) k w) cs w.

(** The tail of [publish], shared by the two branches: fan-out, trimming
    of the history, and the result. *)
Definition fan_out (evName : option string) (out : string) (w : World) : World :=
  call_all (ResWrite out)
           (List.filter (publish_filter evName) (clients (chan w))) w.

Definition publish_tail (fuel : nat) (ret : option Z) (evName : option string)
    (out : string) (w : World) : option (option Z * World) :=
  let w := fan_out evName out w in
  match shift_while fuel (historySize (options (chan w))) (messages (chan w)) with
  | None => None
  | Some ms => Some (ret, set_chan (with_messages ms) w)
  end.

(** [publish(data?, eventName?)].  [None] is a run that is out of fuel;
    the inner option is the [number | undefined] the method returns. *)
Definition publish (fuel : nat) (w : World) (data : Js.value)
    (evName : option string) : option (option Z * World) :=
  let w := log_when (verboseDebugging (chan w))
                    (LogInfo "ssePubsub.subscribe: publish") w in
  let w := log_when (negb (active (chan w)))
                    (LogWarn "ssePubsub.publish: Channel closed") w in
  if negb (Js.truthy data) && negb (Js.truthy_str evName) then
    if (length (clients (chan w)) =? 0)%nat then Some (None, w)
    else publish_tail fuel None evName ping_output w
  else
    let i := nextID (chan w) in
    let w := set_chan (with_nextID (i + 1)) w in
    let out := render i evName data in
    let name := if Js.truthy_str evName
                then default EmptyString evName else EmptyString in
    let w := set_chan (fun c => with_messages
                 (messages c ++ [{| id := i; eventName := name; output := out |}]) c) w in
    publish_tail fuel (Some i) (Some name) out w.

(** The replay depth of [subscribe]. *)
Definition lastID (r : Request) : option Z :=
  match last_event_id r with
  | Some h => if Js.string_nonempty h then Js.parseInt10 h else None
  | None => None
  end.

Definition replay_depth (c : Channel) (r : Request) : Z :=
  match lastID r with
  | Some k => nextID c - 1 - k
  | None => rewind (options c)
  end.

(** The history entries [subscribe] replays to connection [c]. *)
Definition replayed (ch : Channel) (c : Connection) : list Message :=
  let depth := replay_depth ch (req c) in
  if depth =? 0 then []
  else Js.slice_from (0 - depth) (List.filter (replay_filter c) (messages ch)).

Definition set_add (c : Connection) (cs : list Connection) : list Connection :=
  if existsb (fun c' => (conn_id c' =? conn_id c)%nat) cs then cs else cs ++ [c].

Definition set_delete (c : Connection) (cs : list Connection) : list Connection :=
  List.filter (fun c' => negb (conn_id c' =? conn_id c)%nat) cs.

Definition subscribe_body (ch : Channel) (c : Connection) : string :=
  fold_left (fun body m => body ^^ output m) (replayed ch c)
    ("retry: " ^^ Js.string_of_Z (clientRetryInterval (options ch)) ^^ LF ^^ LF).

(** [subscribe(req, res, events?)] *)
Definition subscribe (w : World) (rq : Request) (rs : nat)
    (evs : option (list Pattern)) : Connection * World :=
  let w := log_when (verboseDebugging (chan w))
                    (LogInfo "ssePubsub.subscribe: subscribe") w in
  let w := log_when (negb (active (chan w)))
                    (LogWarn "ssePubsub.subscribe: Channel closed") w in
  let c := {| conn_id := allocated w; req := rq; res := rs; events := evs |} in
  let w := {| chan := chan w; responses := responses w; logs := logs w;
              pingRunning := pingRunning w; timeouts := timeouts w;
              allocated := S (allocated w) |} in
  let w := res_call rs (ResWriteHead 200) w in
  let w := res_call rs ResFlushHeaders w in
  let w := res_call rs (ResWrite (subscribe_body (chan w) c)) w in
  let w := set_chan (fun ch => with_clients (set_add c (clients ch)) ch) w in
  let w := if maxStreamDuration (options (chan w)) =? 0 then w
           else {| chan := chan w; responses := responses w; logs := logs w;
                   pingRunning := pingRunning w;
                   timeouts := timeouts w ++ [c];
                   allocated := allocated w |} in
  let w := res_call rs (ResOn "close") w in
  let w := res_call rs (ResOn "error") w in
  let w := res_call rs (ResOn "finish") w in
  (c, w).

(** [unsubscribe(c)] *)
Definition unsubscribe (w : World) (c : Connection) : World :=
  let w := log_when (verboseDebugging (chan w))
                    (LogInfo "ssePubsub.unsubscribe") w in
  let w := res_call (res c) ResEnd w in
  set_chan (fun ch => with_clients (set_delete c (clients ch)) ch) w.

(** [close()] *)
Definition close (w : World) : World :=
  let w := call_all ResEnd (clients (chan w)) w in
  let w := set_chan (with_clients []) w in
  let w := set_chan (with_messages []) w in
  let w := if pingTimer (chan w)
           then {| chan := chan w; responses := responses w; logs := logs w;
                   pingRunning := false; timeouts := timeouts w;
                   allocated := allocated w |}
           else w in
  set_chan (with_active false) w.

Definition getSubscriberCount (w : World) : nat := length (clients (chan w)).

(** [listClients()]: the number of subscribers by remote address. *)
Definition listClients (w : World) : gmap string nat :=
  fold_left
    (fun rollupByIP c =>
       let ip := match remoteAddress (req c) with
                 | Some a => if Js.string_nonempty a then a else "unknown"%string
                 | None => "unknown"%string
                 end in
       <[ip := S (default 0%nat (rollupByIP !! ip))]> rollupByIP)
    (clients (chan w)) ∅.

(** The callbacks [subscribe] registers. *)
Definition on_timeout (w : World) (c : Connection) : World :=
  if finished w (res c) then w
  else unsubscribe
         (log_when (verboseDebugging (chan w))
                   (LogInfo "ssePubsub.subscribe: unsubscribe via timeout") w) c.

Definition on_close (w : World) (c : Connection) : World :=
  unsubscribe
    (log_when (verboseDebugging (chan w))
              (LogInfo "ssePubsub.subscribe: unsubscribe via response close") w) c.

(** The constructor: omitted fields take their defaults. *)
Definition resolve (p : PartialOptions) : Options :=
  {| pingInterval := default 30000 (p_pingInterval p);
     maxStreamDuration := default 0 (p_maxStreamDuration p);
     clientRetryInterval := default 10000 (p_clientRetryInterval p);
     startId := default 1 (p_startId p);
     historySize := default 1 (p_historySize p);
     rewind := default 0 (p_rewind p) |}.

Definition construct (p : PartialOptions) (verbose : bool) : World :=
  let o := resolve p in
  let timer := negb (pingInterval o =? 0) in
  {| chan := {| nextID := startId o; clients := []; messages := [];
                active := true; pingTimer := timer; options := o;
                verboseDebugging := verbose |};
     responses := ∅; logs := []; pingRunning := timer; timeouts := [];
     allocated := 0 |}.

(** ** Sequences of calls *)

Inductive Op : Type :=
| OpPublish (data : Js.value) (evName : option string)
| OpSubscribe (rq : Request) (rs : nat) (evs : option (list Pattern))
| OpUnsubscribe (c : Connection)
| OpClose
| OpTimeout (c : Connection)        (* a maxStreamDuration timer fires *)
| OpStreamClose (c : Connection).   (* the "close" event of c.res *)

Definition step (fuel : nat) (w : World) (op : Op) : option (option Z * World) :=
  match op with
  | OpPublish data evName => publish fuel w data evName
  | OpSubscribe rq rs evs => Some (None, snd (subscribe w rq rs evs))
  | OpUnsubscribe c => Some (None, unsubscribe w c)
  | OpClose => Some (None, close w)
  | OpTimeout c => Some (None, on_timeout w c)
  | OpStreamClose c => Some (None, on_close w c)
  end.

(** Runs the calls in order; gives the ids [publish] returned and the
    final state. *)
Fixpoint run (fuel : nat) (w : World) (ops : list Op) : option (list Z * World) :=
  match ops with
  | [] => Some ([], w)
  | op :: rest =>
      match step fuel w op with
      | None => None
      | Some (r, w') =>
          match run fuel w' rest with
          | None => None
          | Some (ids, w'') => Some (option_list r ++ ids, w'')
          end
      end
  end.

(** ** Predicates of the statements *)

(** The last [n] elements. *)
Definition keep_last {A} (n : Z) (l : list A) : list A :=
  drop (length l - Z.to_nat n) l.

(** The ids are [a], [a+1], ... in order. *)
Fixpoint ids_from (a : Z) (ms : list Message) : bool :=
  match ms with
  | [] => true
  | m :: rest => (id m =? a) && ids_from (a + 1) rest
  end.

(** The invariant of the history: the size is a bound, the buffer respects
    it, and it holds the last ids assigned, in order. *)
Definition history_ok (ch : Channel) : bool :=
  (0 <=? historySize (options ch))
  && (Z.of_nat (length (messages ch)) <=? historySize (options ch))
  && ids_from (nextID ch - Z.of_nat (length (messages ch))) (messages ch).

Fixpoint increasing (l : list Z) : Prop :=
  match l with
  | [] => True
  | x :: rest => Forall (fun y => x < y) rest /\ increasing rest
  end.

Fixpoint distinct (l : list nat) : bool :=
  match l with
  | [] => true
  | x :: rest => negb (existsb (Nat.eqb x) rest) && distinct rest
  end.

(** No two subscribers write to the same [Response]. *)
Definition responses_distinct (ch : Channel) : bool :=
  distinct (map res (clients ch)).

(** The name [publish] stores and filters on: [eventName || ""]. *)
Definition stored_name (evName : option string) : string :=
  default EmptyString evName.

Definition published (i : Z) (data : Js.value) (evName : option string) : Message :=
  {| id := i; eventName := stored_name evName; output := render i evName data |}.

(** Fuel that lets the trimming loop of one [publish] finish: an
    iteration for every entry above the size after the push, and one for
    the test that ends the loop. *)
Definition enough_fuel (fuel : nat) (ch : Channel) : Prop :=
  (length (messages ch) + 1 - Z.to_nat (historySize (options ch)) < fuel)%nat.

Definition is_ping (data : Js.value) (evName : option string) : bool :=
  negb (Js.truthy data) && negb (Js.truthy_str evName).

(** The holders of response [r] among the recipients of a fan-out. *)
Definition recipients_on (r : nat) (evName : option string)
    (cs : list Connection) : nat :=
  length (List.filter (fun c => (res c =? r)%nat)
                      (List.filter (publish_filter evName) cs)).

(** What a call of [publish] logs. *)
Definition publish_logs (ch : Channel) : list LogEntry :=
  (if verboseDebugging ch then [LogInfo "ssePubsub.subscribe: publish"] else [])
  ++ (if negb (active ch) then [LogWarn "ssePubsub.publish: Channel closed"] else []).

(** How a call moves [nextID]: an id is returned exactly when [nextID]
    advances, and it is the old [nextID]. *)
Definition id_step (before : Channel) (r : option Z) (after : Channel) : Prop :=
  match r with
  | Some i => i = nextID before /\ nextID after = i + 1
  | None => nextID after = nextID before
  end.


(** The result and the channel of [publish] in a state that satisfies the
    invariant, where the trimming loop drops at most the oldest entry. *)
Definition publish_ret (ch : Channel) (data : Js.value)
    (evName : option string) : option Z :=
  if is_ping data evName then None else Some (nextID ch).

Definition publish_chan (ch : Channel) (data : Js.value)
    (evName : option string) : Channel :=
  if is_ping data evName then ch
  else with_messages
         (keep_last (historySize (options ch))
            (messages ch ++ [published (nextID ch) data evName]))
         (with_nextID (nextID ch + 1) ch).




(** The text [publish] splits into data lines: the JSON text of an object
    (and of [null]), the string of a truthy scalar, nothing for a falsy
    value. *)
Definition payload_text (data : Js.value) : string :=
  let data := if Js.typeof_object data
              then Js.Str (Js.JSON_stringify data) else data in
  if Js.truthy data then Js.to_string data else EmptyString.

Fixpoint concat_strings (l : list string) : string :=
  match l with
  | [] => EmptyString
  | x :: rest => x ^^ concat_strings rest
  end.

Definition event_line (evName : option string) : string :=
  match evName with
  | Some name => if Js.string_nonempty name then "event: " ^^ name ^^ LF
                 else EmptyString
  | None => EmptyString
  end.

(** The block of the wire format for the given data lines. *)
Definition block_of (i : Z) (evName : option string) (pieces : list string)
  : string :=
  "id: " ^^ Js.string_of_Z i ^^ " " ^^ LF
  ^^ event_line evName
  ^^ concat_strings (map (fun piece => "data: " ^^ piece ^^ LF) pieces)
  ^^ LF.



Definition has_newline (s : string) : bool :=
  existsb Js.is_newline (list_ascii_of_string s).

(** ** Concrete channels and requests *)

(** Channels used as concrete inputs. *)
Definition no_options : PartialOptions :=
  {| p_pingInterval := None; p_maxStreamDuration := None;
     p_clientRetryInterval := None; p_startId := None;
     p_historySize := None; p_rewind := None |}.

Definition history_of (n : Z) : PartialOptions :=
  {| p_pingInterval := None; p_maxStreamDuration := None;
     p_clientRetryInterval := None; p_startId := None;
     p_historySize := Some n; p_rewind := None |}.

Definition header (h : string) : Request :=
  {| last_event_id := Some h; remoteAddress := None |}.

Definition no_header : Request :=
  {| last_event_id := None; remoteAddress := None |}.

Definition abc : list Op :=
  [OpPublish (Js.Str "a") (Some "ev"%string);
   OpPublish (Js.Str "b") (Some "ev"%string);
   OpPublish (Js.Str "c") (Some "ev"%string)].

(** A channel with one subscriber, filtered on the name [foo], on response 7. *)
Definition one_subscriber : World :=
  snd (subscribe (construct no_options false) no_header 7
         (Some [PString "foo"])).

Definition foo_subscriber : Connection :=
  fst (subscribe (construct no_options false) no_header 7
         (Some [PString "foo"])).

Definition closed_channel : World := close (construct no_options false).

(** ** The capability middleware, [middleware/sseSupportMiddleware.ts] *)

(** [req.app.locals?.ctx?.enableEventStream]: every link of the chain may
    be missing. *)
Record AppContext : Type := {
  enableEventStream : option bool;
}.

Record AppLocals : Type := {
  ctx : option AppContext;
}.

Record MiddlewareRequest : Type := {
  locals : option AppLocals;
}.

(** What the middleware does, in order. *)
Inductive MiddlewareCall : Type :=
| SetHeader (name value : string)
| Next.

Definition stream_enabled (rq : MiddlewareRequest) : bool :=
  match locals rq with
  | Some l =>
      match ctx l with
      | Some c => default false (enableEventStream c)
      | None => false
      end
  | None => false
  end.

Definition sseSupportMiddleware (rq : MiddlewareRequest) : list MiddlewareCall :=
  (if stream_enabled rq
   then [SetHeader "x-sse-support" "enabled";
         SetHeader "Access-Control-Expose-Headers" "x-sse-support"]
   else [])
  ++ [Next].

(** ** More predicates of the statements *)

(** The identities of the subscribers were allocated before. *)
Definition fresh_ok (w : World) : bool :=
  forallb (fun c => (conn_id c <? allocated w)%nat) (clients (chan w)).

(** The address [listClients] counts a connection under. *)
Definition ip_of (c : Connection) : string :=
  match remoteAddress (req c) with
  | Some a => if Js.string_nonempty a then a else "unknown"%string
  | None => "unknown"%string
  end.



(** A channel of history size 3 with two subscribers, the first filtered
    on the name [foo]. *)
Definition two_subscribers : World :=
  snd (subscribe
         (snd (subscribe (construct (history_of 3) false) no_header 7
                 (Some [PString "foo"])))
         {| last_event_id := None; remoteAddress := Some "10.0.0.1"%string |}
         8 None).

(** The property names every JavaScript object inherits: for them
    [ip in rollupByIP] holds in the empty object, and [listClients] does
    not count. Remote addresses are not among them. *)
Definition inherited_names : list string :=
  ["constructor"; "__proto__"; "hasOwnProperty"; "isPrototypeOf";
   "propertyIsEnumerable"; "toLocaleString"; "toString"; "valueOf";
   "__defineGetter__"; "__defineSetter__"; "__lookupGetter__";
   "__lookupSetter__"]%string.

Definition plain_addresses (w : World) : bool :=
  forallb (fun c => negb (existsb (String.eqb (ip_of c)) inherited_names))
          (clients (chan w)).

(** The subscribers [listClients] counts under the address [ip]. *)
Definition count_ip (ip : string) (cs : list Connection) : nat :=
  length (List.filter (fun c => String.eqb (ip_of c) ip) cs).

(** The calls of [next()] the middleware makes. *)
Definition count_next (l : list MiddlewareCall) : nat :=
  length (List.filter (fun k => match k with Next => true | _ => false end) l).

(** A channel whose only subscriber has the empty array as filter. *)
Definition empty_filter_subscriber : Connection :=
  fst (subscribe (construct no_options false) no_header 7 (Some [])).

Definition empty_filter_world : World :=
  snd (subscribe (construct no_options false) no_header 7 (Some [])).

(** The channel of history size 3 after the three events. *)
Definition abc_world : World :=
  match run 2 (construct (history_of 3) false) abc with
  | Some (_, w) => w
  | None => construct (history_of 3) false
  end.

(** A connection without filter that comes back with a last id. *)
Definition reconnecting (h : string) : Connection :=
  {| conn_id := 0; req := header h; res := 0; events := None |}.

(** ** Lemmas on the primitives *)

Lemma keep_last_all {A} (n : Z) (l : list A) :
  Z.of_nat (length l) <= n -> keep_last n l = l.
Proof.
  intros H. unfold keep_last.
  replace (length l - Z.to_nat n)%nat with 0%nat by lia. reflexivity.
Qed.

Lemma keep_last_length {A} (n : Z) (l : list A) :
  0 <= n -> Z.of_nat (length (keep_last n l)) <= n.
Proof. intros H. unfold keep_last. rewrite length_drop. lia. Qed.


Lemma shift_while_enough (size : Z) (fuel : nat) :
  0 <= size ->
  forall ms, (length ms - Z.to_nat size < fuel)%nat ->
  shift_while fuel size ms = Some (keep_last size ms).
Proof.
  intros Hsize. induction fuel as [|fuel IH]; intros ms Hlen; [lia|].
  simpl. destruct (Z.gtb_spec (Z.of_nat (length ms)) size) as [E|E].
  - destruct ms as [|m ms]; [simpl in E; lia|].
    rewrite length_cons in *.
    simpl tail. rewrite IH by lia. f_equal.
    unfold keep_last. rewrite length_cons.
    replace (S (length ms) - Z.to_nat size)%nat
      with (S (length ms - Z.to_nat size)) by lia.
    reflexivity.
  - rewrite keep_last_all by lia. reflexivity.
Qed.

(** With a negative size the loop never ends: [shift] on the empty array
    leaves it empty, and its length stays above the size. *)
Lemma shift_while_negative (size : Z) (fuel : nat) :
  size < 0 -> forall ms, shift_while fuel size ms = None.
Proof.
  intros Hsize. induction fuel as [|fuel IH]; intros ms; [reflexivity|].
  simpl. destruct (Z.gtb_spec (Z.of_nat (length ms)) size); [apply IH | lia].
Qed.

Lemma ids_from_app (a : Z) (ms : list Message) (m : Message) :
  ids_from a (ms ++ [m])
  = ids_from a ms && (id m =? a + Z.of_nat (length ms)).
Proof.
  revert a. induction ms as [|x ms IH]; intros a; simpl.
  - rewrite Z.add_0_r, andb_true_r. reflexivity.
  - rewrite IH, <- andb_assoc. do 3 f_equal. lia.
Qed.

Lemma ids_from_drop (k : nat) :
  forall (a : Z) (ms : list Message),
  ids_from a ms = true ->
  ids_from (a + Z.of_nat (min k (length ms))) (drop k ms) = true.
Proof.
  induction k as [|k IH]; intros a ms H.
  - simpl. rewrite drop_0, Z.add_0_r. exact H.
  - destruct ms as [|m ms]; simpl in *; [reflexivity|].
    apply andb_prop in H as [_ H]. apply IH in H.
    replace (a + Z.of_nat (S (min k (length ms))))
      with (a + 1 + Z.of_nat (min k (length ms))) by lia.
    exact H.
Qed.


(** ** Frame lemmas on the state updates *)

Lemma calls_on_res_call (r r' : nat) (k : ResCall) (w : World) :
  calls_on (res_call r k w) r'
  = if decide (r = r') then calls_on w r ++ [k] else calls_on w r'.
Proof.
  unfold calls_on at 1. simpl. case_decide as E.
  - subst. rewrite lookup_insert_eq. reflexivity.
  - rewrite lookup_insert_ne by exact E. reflexivity.
Qed.

Lemma calls_on_log_when (b : bool) (e : LogEntry) (w : World) (r : nat) :
  calls_on (log_when b e w) r = calls_on w r.
Proof. destruct b; reflexivity. Qed.

Lemma chan_log_when (b : bool) (e : LogEntry) (w : World) :
  chan (log_when b e w) = chan w.
Proof. destruct b; reflexivity. Qed.

Lemma logs_log_when (b : bool) (e : LogEntry) (w : World) :
  logs (log_when b e w) = logs w ++ (if b then [e] else []).
Proof. destruct b; simpl; [reflexivity | by rewrite app_nil_r]. Qed.

Lemma call_all_frame (k : ResCall) (cs : list Connection) :
  forall w, chan (call_all k cs w) = chan w
            /\ logs (call_all k cs w) = logs w
            /\ allocated (call_all k cs w) = allocated w.
Proof.
  unfold call_all. induction cs as [|c cs IH]; intros w; simpl; [done|].
  destruct (IH (res_call (res c) k w)) as (-> & -> & ->). done.
Qed.

(** A response gets the call once for every listed connection that holds it. *)
Lemma call_all_calls (k : ResCall) (r : nat) (cs : list Connection) :
  forall w, calls_on (call_all k cs w) r
            = calls_on w r
              ++ repeat k (length (List.filter (fun c => (res c =? r)%nat) cs)).
Proof.
  unfold call_all. induction cs as [|c cs IH]; intros w; simpl.
  - by rewrite app_nil_r.
  - rewrite IH, calls_on_res_call. case_decide as E.
    + subst. rewrite Nat.eqb_refl. simpl. by rewrite <- app_assoc.
    + apply Nat.eqb_neq in E. rewrite E. reflexivity.
Qed.

Lemma filter_all {A} (f : A -> bool) (l : list A) :
  (forall x, f x = true) -> List.filter f l = l.
Proof.
  intros Hall. induction l as [|x l IH]; simpl; [done|]. by rewrite Hall, IH.
Qed.

Lemma with_messages_id (ch : Channel) : with_messages (messages ch) ch = ch.
Proof. by destruct ch. Qed.

Lemma set_chan_id (w : World) : set_chan (with_messages (messages (chan w))) w = w.
Proof. destruct w as [ch ? ? ? ? ?]. unfold set_chan. simpl. by rewrite with_messages_id. Qed.

Lemma stored_name_eq (evName : option string) :
  (if Js.truthy_str evName then default EmptyString evName else EmptyString)
  = stored_name evName.
Proof. by destruct evName as [[|a s]|]. Qed.

(** ** What a call of [publish] does *)

Lemma publish_tail_spec (fuel : nat) (ret : option Z) (evName : option string)
    (out : string) (w : World) :
  0 <= historySize (options (chan w)) ->
  (length (messages (chan w)) - Z.to_nat (historySize (options (chan w))) < fuel)%nat ->
  exists w',
    publish_tail fuel ret evName out w = Some (ret, w')
    /\ chan w' = with_messages
                   (keep_last (historySize (options (chan w))) (messages (chan w)))
                   (chan w)
    /\ (forall r, calls_on w' r
                  = calls_on w r
                    ++ repeat (ResWrite out)
                         (recipients_on r evName (clients (chan w))))
    /\ logs w' = logs w.
Proof.
  intros Hsize Hfuel. unfold publish_tail, fan_out.
  set (cs := List.filter (publish_filter evName) (clients (chan w))).
  destruct (call_all_frame (ResWrite out) cs w) as (Hch & Hlg & _).
  pose proof (fun r => call_all_calls (ResWrite out) r cs w) as Hcalls.
  set (w1 := call_all (ResWrite out) cs w) in *.
  rewrite Hch, shift_while_enough by assumption.
  eexists. split; [reflexivity|]. split; [|split].
  - simpl. by rewrite Hch.
  - intros r. exact (Hcalls r).
  - exact Hlg.
Qed.

(** The non-ping branch, with fuel for the trimming loop. *)
Lemma publish_nonping_spec (fuel : nat) (w : World) (data : Js.value)
    (evName : option string) :
  is_ping data evName = false ->
  0 <= historySize (options (chan w)) ->
  enough_fuel fuel (chan w) ->
  exists w',
    publish fuel w data evName = Some (Some (nextID (chan w)), w')
    /\ chan w' = with_messages
                   (keep_last (historySize (options (chan w)))
                      (messages (chan w)
                       ++ [published (nextID (chan w)) data evName]))
                   (with_nextID (nextID (chan w) + 1) (chan w))
    /\ (forall r, calls_on w' r
                  = calls_on w r
                    ++ repeat (ResWrite (render (nextID (chan w)) evName data))
                         (recipients_on r (Some (stored_name evName))
                                        (clients (chan w))))
    /\ logs w' = logs w ++ publish_logs (chan w).
Proof.
  intros Hping Hsize Hfuel. unfold publish. fold (is_ping data evName).
  rewrite Hping, !chan_log_when, stored_name_eq.
  fold (published (nextID (chan w)) data evName).
  match goal with |- context [publish_tail _ _ _ _ ?w0] => set (w2 := w0) end.
  assert (Hch2 : chan w2 = with_messages
                   (messages (chan w) ++ [published (nextID (chan w)) data evName])
                   (with_nextID (nextID (chan w) + 1) (chan w))).
  { subst w2. by destruct (verboseDebugging (chan w)), (active (chan w)). }
  assert (Hcalls2 : forall r, calls_on w2 r = calls_on w r).
  { intros r. subst w2.
    by destruct (verboseDebugging (chan w)), (active (chan w)). }
  assert (Hlogs2 : logs w2 = logs w ++ publish_logs (chan w)).
  { subst w2. unfold publish_logs.
    destruct (verboseDebugging (chan w)), (active (chan w)); simpl;
      rewrite <- ?app_assoc, ?app_nil_r; reflexivity. }
  destruct (publish_tail_spec fuel (Some (nextID (chan w)))
              (Some (stored_name evName))
              (render (nextID (chan w)) evName data) w2)
    as (w' & Hrun & Hch & Hcalls & Hlogs).
  { rewrite Hch2. exact Hsize. }
  { rewrite Hch2. simpl. rewrite length_app. simpl. exact Hfuel. }
  exists w'. split; [exact Hrun|]. split; [|split].
  - rewrite Hch, Hch2. reflexivity.
  - intros r. rewrite Hcalls, Hcalls2, Hch2. reflexivity.
  - by rewrite Hlogs, Hlogs2.
Qed.

(** The ping branch with no subscriber returns at once. *)
Lemma publish_ping_idle (fuel : nat) (w : World) (data : Js.value)
    (evName : option string) :
  is_ping data evName = true ->
  clients (chan w) = [] ->
  exists w',
    publish fuel w data evName = Some (None, w')
    /\ chan w' = chan w
    /\ responses w' = responses w
    /\ logs w' = logs w ++ publish_logs (chan w).
Proof.
  intros Hping Hcs. unfold publish. fold (is_ping data evName).
  rewrite Hping, !chan_log_when, Hcs. simpl.
  eexists. split; [reflexivity|]. unfold publish_logs.
  destruct (verboseDebugging (chan w)), (active (chan w)); simpl;
    rewrite <- ?app_assoc, ?app_nil_r; done.
Qed.

(** The ping branch with subscribers: every subscriber passes the filter. *)
Lemma publish_ping_spec (fuel : nat) (w : World) (data : Js.value)
    (evName : option string) :
  is_ping data evName = true ->
  clients (chan w) <> [] ->
  0 <= historySize (options (chan w)) ->
  enough_fuel fuel (chan w) ->
  exists w',
    publish fuel w data evName = Some (None, w')
    /\ chan w' = with_messages
                   (keep_last (historySize (options (chan w))) (messages (chan w)))
                   (chan w)
    /\ (forall r, calls_on w' r
                  = calls_on w r
                    ++ repeat (ResWrite ping_output)
                         (length (List.filter (fun c => (res c =? r)%nat)
                                    (clients (chan w)))))
    /\ logs w' = logs w ++ publish_logs (chan w).
Proof.
  intros Hping Hcs Hsize Hfuel. unfold publish. fold (is_ping data evName).
  rewrite Hping, !chan_log_when.
  destruct (clients (chan w)) as [|c0 cs0] eqn:Ecs; [done|]. simpl length.
  simpl Nat.eqb. cbv iota.
  match goal with |- context [publish_tail _ _ _ _ ?w0] => set (w2 := w0) end.
  assert (Hch2 : chan w2 = chan w)
    by (subst w2; by destruct (verboseDebugging (chan w)), (active (chan w))).
  assert (Hcalls2 : forall r, calls_on w2 r = calls_on w r)
    by (intros r; subst w2;
        by destruct (verboseDebugging (chan w)), (active (chan w))).
  assert (Hlogs2 : logs w2 = logs w ++ publish_logs (chan w)).
  { subst w2. unfold publish_logs.
    destruct (verboseDebugging (chan w)), (active (chan w)); simpl;
      rewrite <- ?app_assoc, ?app_nil_r; reflexivity. }
  destruct (publish_tail_spec fuel None evName ping_output w2)
    as (w' & Hrun & Hch & Hcalls & Hlogs).
  { by rewrite Hch2. }
  { rewrite Hch2. unfold enough_fuel in Hfuel. lia. }
  exists w'. split; [exact Hrun|]. split; [|split].
  - by rewrite Hch, Hch2.
  - intros r. rewrite Hcalls, Hcalls2, Hch2, Ecs. do 2 f_equal.
    unfold recipients_on. f_equal.
    apply andb_prop in Hping as [_ Hname].
    assert (Hall : forall c, publish_filter evName c = true).
    { intros c. unfold publish_filter. by rewrite Hname. }
    by rewrite (filter_all _ _ Hall).
  - by rewrite Hlogs, Hlogs2.
Qed.

(** ** What the other methods do to the channel *)

Lemma subscribe_chan (w : World) (rq : Request) (rs : nat)
    (evs : option (list Pattern)) :
  chan (snd (subscribe w rq rs evs))
  = with_clients (set_add (fst (subscribe w rq rs evs)) (clients (chan w)))
                 (chan w).
Proof.
  unfold subscribe.
  match goal with |- context [allocated ?x] => set (w0 := x) end.
  assert (Hch : chan w0 = chan w) by (subst w0; by rewrite !chan_log_when).
  clearbody w0. simpl.
  destruct (maxStreamDuration (options (chan w0)) =? 0); simpl; by rewrite Hch.
Qed.

Lemma unsubscribe_chan (w : World) (c : Connection) :
  chan (unsubscribe w c)
  = with_clients (set_delete c (clients (chan w))) (chan w).
Proof.
  unfold unsubscribe. by destruct (verboseDebugging (chan w)).
Qed.

Lemma close_chan (w : World) :
  chan (close w)
  = with_active false (with_messages [] (with_clients [] (chan w))).
Proof.
  unfold close.
  destruct (call_all_frame ResEnd (clients (chan w)) w) as (Hch & _).
  set (w1 := call_all ResEnd (clients (chan w)) w) in *.
  simpl. destruct (pingTimer (chan w1)) eqn:E; simpl; by rewrite Hch.
Qed.

Lemma on_timeout_chan (w : World) (c : Connection) :
  chan (on_timeout w c)
  = if finished w (res c) then chan w
    else with_clients (set_delete c (clients (chan w))) (chan w).
Proof.
  unfold on_timeout. destruct (finished w (res c)); [reflexivity|].
  rewrite unsubscribe_chan. by destruct (verboseDebugging (chan w)).
Qed.

Lemma on_close_chan (w : World) (c : Connection) :
  chan (on_close w c)
  = with_clients (set_delete c (clients (chan w))) (chan w).
Proof.
  unfold on_close. rewrite unsubscribe_chan.
  by destruct (verboseDebugging (chan w)).
Qed.

(** ** The invariant of the history *)

Lemma history_ok_inv (ch : Channel) :
  history_ok ch = true ->
  0 <= historySize (options ch)
  /\ Z.of_nat (length (messages ch)) <= historySize (options ch)
  /\ ids_from (nextID ch - Z.of_nat (length (messages ch))) (messages ch) = true.
Proof.
  unfold history_ok. intros H.
  apply andb_prop in H as [H H3]. apply andb_prop in H as [H1 H2].
  repeat split; [lia | lia | exact H3].
Qed.

Lemma history_ok_fuel (ch : Channel) (fuel : nat) :
  history_ok ch = true -> (2 <= fuel)%nat -> enough_fuel fuel ch.
Proof.
  intros H Hfuel. apply history_ok_inv in H as (H1 & H2 & _).
  unfold enough_fuel. lia.
Qed.

Lemma history_ok_with_clients (cs : list Connection) (ch : Channel) :
  history_ok (with_clients cs ch) = history_ok ch.
Proof. reflexivity. Qed.

Lemma history_ok_push (ch : Channel) (m : Message) :
  history_ok ch = true ->
  id m = nextID ch ->
  history_ok (with_messages
                (keep_last (historySize (options ch)) (messages ch ++ [m]))
                (with_nextID (nextID ch + 1) ch)) = true.
Proof.
  intros H Hid. apply history_ok_inv in H as (H1 & H2 & H3).
  unfold history_ok. simpl.
  pose proof (keep_last_length (historySize (options ch)) (messages ch ++ [m]) H1).
  apply andb_true_intro. split; [apply andb_true_intro; split; lia|].
  assert (Hall : ids_from (nextID ch - Z.of_nat (length (messages ch)))
                   (messages ch ++ [m]) = true).
  { rewrite ids_from_app, H3. simpl. apply Z.eqb_eq. lia. }
  unfold keep_last in *.
  set (k := (length (messages ch ++ [m]) - Z.to_nat (historySize (options ch)))%nat) in *.
  apply (ids_from_drop k) in Hall.
  rewrite length_drop. rewrite length_app in *. simpl in *.
  replace (nextID ch + 1 - Z.of_nat (length (messages ch) + 1 - k))
    with (nextID ch - Z.of_nat (length (messages ch))
          + Z.of_nat (min k (length (messages ch) + 1))) by lia.
  exact Hall.
Qed.

Lemma history_ok_close (ch : Channel) :
  history_ok ch = true ->
  history_ok (with_active false (with_messages [] (with_clients [] ch))) = true.
Proof.
  intros H. apply history_ok_inv in H as (H1 & _).
  unfold history_ok. cbn [with_active with_messages with_clients messages options length].
  apply andb_true_intro. split; [|reflexivity].
  apply andb_true_intro. split; apply Z.leb_le; simpl; lia.
Qed.

Lemma history_ok_construct (p : PartialOptions) (verbose : bool) :
  0 <= historySize (resolve p) ->
  history_ok (chan (construct p verbose)) = true.
Proof.
  intros H. unfold history_ok, construct. cbn [chan messages options length].
  apply andb_true_intro. split; [|reflexivity].
  apply andb_true_intro. split; apply Z.leb_le; exact H.
Qed.

(** Every call returns in a state that satisfies the invariant, with two
    units of fuel. *)
Lemma publish_total (fuel : nat) (w : World) (data : Js.value)
    (evName : option string) :
  history_ok (chan w) = true -> (2 <= fuel)%nat ->
  exists r w',
    publish fuel w data evName = Some (r, w')
    /\ history_ok (chan w') = true
    /\ options (chan w') = options (chan w)
    /\ id_step (chan w) r (chan w').
Proof.
  intros Hok Hfuel.
  pose proof (history_ok_fuel _ _ Hok Hfuel) as Hen.
  pose proof (history_ok_inv _ Hok) as (H1 & H2 & H3).
  destruct (is_ping data evName) eqn:Hping.
  - destruct (clients (chan w)) as [|c0 cs0] eqn:Ecs.
    + destruct (publish_ping_idle fuel w data evName Hping Ecs)
        as (w' & Hrun & Hch & _).
      exists None, w'. rewrite Hch. by repeat split.
    + destruct (publish_ping_spec fuel w data evName Hping) as (w' & Hrun & Hch & _);
        [by rewrite Ecs | exact H1 | exact Hen |].
      exists None, w'. rewrite Hch, keep_last_all, with_messages_id by exact H2.
      by repeat split.
  - destruct (publish_nonping_spec fuel w data evName Hping H1 Hen)
      as (w' & Hrun & Hch & _).
    exists (Some (nextID (chan w))), w'. rewrite Hch.
    split; [exact Hrun|]. split; [by apply history_ok_push|].
    by repeat split.
Qed.

Lemma step_total (fuel : nat) (w : World) (op : Op) :
  history_ok (chan w) = true -> (2 <= fuel)%nat ->
  exists r w',
    step fuel w op = Some (r, w')
    /\ history_ok (chan w') = true
    /\ options (chan w') = options (chan w)
    /\ id_step (chan w) r (chan w').
Proof.
  intros Hok Hfuel. destruct op as [data evName|rq rs evs|c| |c|c]; cbn [step].
  - by apply publish_total.
  - eexists _, _. split; [reflexivity|]. rewrite subscribe_chan. by repeat split.
  - eexists _, _. split; [reflexivity|]. rewrite unsubscribe_chan. by repeat split.
  - eexists _, _. split; [reflexivity|]. rewrite close_chan.
    split; [by apply history_ok_close|]. by repeat split.
  - eexists _, _. split; [reflexivity|]. rewrite on_timeout_chan.
    destruct (finished w (res c)); by repeat split.
  - eexists _, _. split; [reflexivity|]. rewrite on_close_chan. by repeat split.
Qed.

Lemma run_total (fuel : nat) (ops : list Op) :
  (2 <= fuel)%nat ->
  forall w, history_ok (chan w) = true ->
  exists ids w',
    run fuel w ops = Some (ids, w')
    /\ history_ok (chan w') = true
    /\ options (chan w') = options (chan w)
    /\ nextID (chan w) <= nextID (chan w')
    /\ Forall (fun i => nextID (chan w) <= i < nextID (chan w')) ids
    /\ increasing ids.
Proof.
  intros Hfuel. induction ops as [|op ops IH]; intros w Hok; simpl.
  - exists [], w. repeat split; done.
  - destruct (step_total fuel w op Hok Hfuel) as (r & w1 & -> & Hok1 & Hopt1 & Hid).
    destruct (IH w1 Hok1) as (ids & w2 & -> & Hok2 & Hopt2 & Hle & Hin & Hinc).
    exists (option_list r ++ ids), w2. split; [reflexivity|].
    split; [exact Hok2|]. split; [congruence|].
    destruct r as [i|]; simpl in *.
    + destruct Hid as [-> Hnext]. split; [lia|]. split.
      * constructor; [lia|]. eapply Forall_impl; [exact Hin|]. simpl. lia.
      * split; [|exact Hinc]. eapply Forall_impl; [exact Hin|]. simpl. lia.
    + rewrite Hid in *. by repeat split.
Qed.

(** ** Delivery to a subscriber *)

Lemma distinct_inv (x : nat) (l : list nat) :
  distinct (x :: l) = true -> ~ In x l /\ distinct l = true.
Proof.
  simpl. intros H. apply andb_prop in H as [Hx Hl]. split; [|exact Hl].
  intros Hin. apply negb_true_iff in Hx.
  assert (existsb (Nat.eqb x) l = true); [|congruence].
  apply existsb_exists. exists x. split; [exact Hin | apply Nat.eqb_refl].
Qed.

(** With distinct responses, a subscriber is the only holder of its own. *)
Lemma holders_of_own (cs : list Connection) (c : Connection) :
  distinct (map res cs) = true -> In c cs ->
  List.filter (fun c' => (res c' =? res c)%nat) cs = [c].
Proof.
  induction cs as [|x cs IH]; intros Hd Hin; [destruct Hin|].
  apply distinct_inv in Hd as [Hx Hd]. simpl.
  assert (Hnone : forall y, ~ In (res y) (map res cs) ->
            List.filter (fun c' => (res c' =? res y)%nat) cs = []).
  { intros y Hy. clear -Hy. induction cs as [|z cs IH]; simpl; [done|].
    destruct (Nat.eqb_spec (res z) (res y)) as [E|E].
    - exfalso. apply Hy. simpl. by left.
    - apply IH. intros H. apply Hy. simpl. by right. }
  destruct Hin as [->|Hin].
  - rewrite Nat.eqb_refl, (Hnone c Hx). reflexivity.
  - destruct (Nat.eqb_spec (res x) (res c)) as [E|E].
    + exfalso. apply Hx. rewrite E. by apply in_map.
    + by apply IH.
Qed.

Lemma filter_comm {A} (f g : A -> bool) (l : list A) :
  List.filter f (List.filter g l) = List.filter g (List.filter f l).
Proof.
  induction l as [|x l IH]; simpl; [done|].
  destruct (f x) eqn:Ef, (g x) eqn:Eg; simpl; rewrite ?Ef, ?Eg, IH; done.
Qed.

Lemma recipients_on_own (evName : option string) (cs : list Connection)
    (c : Connection) :
  distinct (map res cs) = true -> In c cs ->
  recipients_on (res c) evName cs = if publish_filter evName c then 1%nat else 0%nat.
Proof.
  intros Hd Hin. unfold recipients_on.
  rewrite filter_comm, (holders_of_own cs c Hd Hin). simpl.
  by destruct (publish_filter evName c).
Qed.

Lemma holders_of_none (cs : list Connection) (r : nat) :
  ~ In r (map res cs) ->
  forall f, List.filter (fun c' => (res c' =? r)%nat) (List.filter f cs) = [].
Proof.
  intros Hr f. rewrite filter_comm.
  replace (List.filter (fun c' => (res c' =? r)%nat) cs) with (@nil Connection);
    [reflexivity|].
  induction cs as [|z cs IH]; simpl; [done|].
  destruct (Nat.eqb_spec (res z) r) as [E|E].
  - exfalso. apply Hr. simpl. by left.
  - apply IH. intros H. apply Hr. simpl. by right.
Qed.





(** ** The channel after a call of [publish] *)

Lemma publish_returns (fuel : nat) (w : World) (data : Js.value)
    (evName : option string) :
  history_ok (chan w) = true -> (2 <= fuel)%nat ->
  exists w',
    publish fuel w data evName = Some (publish_ret (chan w) data evName, w')
    /\ chan w' = publish_chan (chan w) data evName
    /\ logs w' = logs w ++ publish_logs (chan w).
Proof.
  intros Hok Hfuel. unfold publish_ret, publish_chan.
  pose proof (history_ok_fuel _ _ Hok Hfuel) as Hen.
  pose proof (history_ok_inv _ Hok) as (H1 & H2 & H3).
  destruct (is_ping data evName) eqn:Hping.
  - destruct (clients (chan w)) as [|c0 cs0] eqn:Ecs.
    + destruct (publish_ping_idle fuel w data evName Hping Ecs)
        as (w' & Hrun & Hch & _ & Hlogs).
      by exists w'.
    + destruct (publish_ping_spec fuel w data evName Hping)
        as (w' & Hrun & Hch & _ & Hlogs);
        [by rewrite Ecs | exact H1 | exact Hen |].
      exists w'. rewrite Hch, keep_last_all, with_messages_id by exact H2. done.
  - destruct (publish_nonping_spec fuel w data evName Hping H1 Hen)
      as (w' & Hrun & Hch & _ & Hlogs).
    by exists w'.
Qed.



Lemma keep_last_snoc {A} (n : Z) (l : list A) (x : A) :
  0 < n -> last (keep_last n (l ++ [x])) = Some x.
Proof.
  intros Hn. unfold keep_last. rewrite length_app. simpl.
  rewrite drop_app_le by lia. apply last_snoc.
Qed.

Lemma truthy_not_ping (data : Js.value) (evName : option string) :
  Js.truthy data || Js.truthy_str evName = true <-> is_ping data evName = false.
Proof.
  unfold is_ping. destruct (Js.truthy data), (Js.truthy_str evName); simpl; done.
Qed.

(** ** C2: ids *)



(** ** C4: the history buffer *)



(** The scenario of the specification: size 2, three events; the history
    keeps the ids 2 and 3. *)
Example history_scenario :
  (fun '(ids, w) => (ids, map id (messages (chan w)), nextID (chan w)))
    <$> run 2 (construct (history_of 2) false) abc
  = Some ([1; 2; 3], [2; 3], 4).
Proof. vm_compute. reflexivity. Qed.

(** ** C6: pings *)

(** A ping, in a state of a running channel. *)
Lemma ping_delivery (fuel : nat) (w : World) :
  history_ok (chan w) = true ->
  responses_distinct (chan w) = true ->
  (2 <= fuel)%nat ->
  exists w',
    publish fuel w Js.Undefined None = Some (None, w')
    /\ chan w' = chan w
    /\ (clients (chan w) = [] -> responses w' = responses w)
    /\ (forall c, In c (clients (chan w)) ->
          calls_on w' (res c)
          = calls_on w (res c) ++ [ResWrite ("data: " ^^ LF ^^ LF)])
    /\ (forall r, ~ In r (map res (clients (chan w))) ->
          calls_on w' r = calls_on w r).
Proof.
  intros Hok Hd Hfuel.
  pose proof (history_ok_fuel _ _ Hok Hfuel) as Hen.
  pose proof (history_ok_inv _ Hok) as (H1 & H2 & _).
  destruct (clients (chan w)) as [|c0 cs0] eqn:Ecs.
  - destruct (publish_ping_idle fuel w Js.Undefined None eq_refl Ecs)
      as (w' & Hrun & Hch & Hres & _).
    exists w'. repeat split; try done.
    intros r _. unfold calls_on. by rewrite Hres.
  - destruct (publish_ping_spec fuel w Js.Undefined None eq_refl)
      as (w' & Hrun & Hch & Hcalls & _);
      [by rewrite Ecs | exact H1 | exact Hen |].
    exists w'. split; [exact Hrun|].
    split; [by rewrite Hch, keep_last_all, with_messages_id|].
    split; [done|]. rewrite <- Ecs in *. split.
    + intros c Hin. rewrite Hcalls, (holders_of_own _ c Hd Hin). reflexivity.
    + intros r Hr. rewrite Hcalls.
      pose proof (holders_of_none _ r Hr (fun _ => true)) as Hnone.
      rewrite (filter_all (fun _ => true)) in Hnone by done.
      rewrite Hnone. simpl. by rewrite app_nil_r.
Qed.

(** C6. [publish()] without arguments, in a state that satisfies the
    invariant of the history and where the subscribers hold distinct
    responses: with no subscriber it returns no id and changes neither the
    channel nor any response; with subscribers it returns no id, leaves
    the channel (history and [nextID] included) as it was, and makes one
    [write] of the ping block on the response of every subscriber and none
    on any other response. *)
Theorem ping_frame_and_fanout (fuel : nat) (w : World) :
  history_ok (chan w) = true ->
  responses_distinct (chan w) = true ->
  (2 <= fuel)%nat ->
  exists w',
    publish fuel w Js.Undefined None = Some (None, w')
    /\ messages (chan w') = messages (chan w)
    /\ nextID (chan w') = nextID (chan w)
    /\ clients (chan w') = clients (chan w)
    /\ (clients (chan w) = [] -> responses w' = responses w)
    /\ (forall c, In c (clients (chan w)) ->
          calls_on w' (res c)
          = calls_on w (res c) ++ [ResWrite ("data: " ^^ LF ^^ LF)])
    /\ (forall r, ~ In r (map res (clients (chan w))) ->
          calls_on w' r = calls_on w r).
Proof.
  intros Hok Hd Hfuel.
  destruct (ping_delivery fuel w Hok Hd Hfuel)
    as (w' & Hrun & Hch & Hidle & Hsubs & Hothers).
  exists w'. split; [exact Hrun|]. rewrite Hch.
  split; [reflexivity|]. split; [reflexivity|]. split; [reflexivity|].
  split; [exact Hidle|]. split; [exact Hsubs | exact Hothers].
Qed.

Lemma ping_frame_and_fanout_witness :
  history_ok (chan one_subscriber) = true
  /\ responses_distinct (chan one_subscriber) = true
  /\ (2 <= 2)%nat
  /\ exists w',
       publish 2 one_subscriber Js.Undefined None = Some (None, w')
       /\ messages (chan w') = messages (chan one_subscriber)
       /\ nextID (chan w') = nextID (chan one_subscriber)
       /\ clients (chan w') = clients (chan one_subscriber)
       /\ (clients (chan one_subscriber) = [] ->
           responses w' = responses one_subscriber)
       /\ (forall c, In c (clients (chan one_subscriber)) ->
             calls_on w' (res c)
             = calls_on one_subscriber (res c)
               ++ [ResWrite ("data: " ^^ LF ^^ LF)])
       /\ (forall r, ~ In r (map res (clients (chan one_subscriber))) ->
             calls_on w' r = calls_on one_subscriber r).
Proof.
  split; [reflexivity|]. split; [reflexivity|]. split; [lia|].
  apply (ping_frame_and_fanout 2 one_subscriber); [reflexivity | reflexivity | lia].
Defined.

(** ** C5: event filters *)

Lemma deliver_named (fuel : nat) (w : World) (c : Connection)
    (data : Js.value) (name : string) :
  history_ok (chan w) = true ->
  responses_distinct (chan w) = true ->
  (2 <= fuel)%nat ->
  In c (clients (chan w)) ->
  Js.string_nonempty name = true ->
  exists w',
    publish fuel w data (Some name) = Some (Some (nextID (chan w)), w')
    /\ calls_on w' (res c)
       = calls_on w (res c)
         ++ (if publish_filter (Some name) c
             then [ResWrite (render (nextID (chan w)) (Some name) data)]
             else []).
Proof.
  intros Hok Hd Hfuel Hin Hname.
  pose proof (history_ok_fuel _ _ Hok Hfuel) as Hen.
  pose proof (history_ok_inv _ Hok) as (H1 & _).
  assert (Hping : is_ping data (Some name) = false).
  { unfold is_ping. simpl. rewrite Hname. apply andb_false_r. }
  destruct (publish_nonping_spec fuel w data (Some name) Hping H1 Hen)
    as (w' & Hrun & _ & Hcalls & _).
  exists w'. split; [exact Hrun|].
  rewrite Hcalls. simpl stored_name. rewrite (recipients_on_own _ _ c Hd Hin).
  by destruct (publish_filter (Some name) c).
Qed.



(** ** C3: publishing on a closed channel *)

(** On a closed channel [publish] still assigns an id and grows the
    history: the warning is all the flag [active] is used for. *)
Lemma publish_after_close_takes_effect :
  active (chan closed_channel) = false
  /\ nextID (chan closed_channel) = 1
  /\ messages (chan closed_channel) = []
  /\ exists w',
       publish 2 closed_channel (Js.Str "a") (Some "ev"%string) = Some (Some 1, w')
       /\ nextID (chan w') = 2
       /\ map id (messages (chan w')) = [1]
       /\ chan w' <> chan closed_channel
       /\ ~ (forall fuel w data evName r w1,
               active (chan w) = false ->
               publish fuel w data evName = Some (r, w1) ->
               r = None /\ chan w1 = chan w).
Proof.
  split; [reflexivity|]. split; [reflexivity|]. split; [reflexivity|].
  eexists. split; [vm_compute; reflexivity|].
  split; [reflexivity|]. split; [reflexivity|]. split; [discriminate|].
  intros H.
  destruct (publish 2 closed_channel (Js.Str "a") (Some "ev"%string))
    as [[r w1]|] eqn:E; [|vm_compute in E; discriminate].
  destruct (H 2%nat closed_channel _ _ _ _ eq_refl E) as [-> _].
  vm_compute in E. discriminate.
Qed.

(** C3, as the code has it. After [close()] a call of [publish] logs the
    warning and returns normally, and is otherwise carried out as on an open
    channel: a publish with a truthy [data] or [eventName] returns
    [nextID], advances it and pushes the message onto the history; a ping
    returns no id and leaves the channel as it was.  The channel stays
    inactive. *)
Theorem publish_after_close (fuel : nat) (w : World) (data : Js.value)
    (evName : option string) :
  active (chan w) = false ->
  history_ok (chan w) = true ->
  (2 <= fuel)%nat ->
  exists r w',
    publish fuel w data evName = Some (r, w')
    /\ logs w'
       = logs w
         ++ (if verboseDebugging (chan w)
             then [LogInfo "ssePubsub.subscribe: publish"] else [])
         ++ [LogWarn "ssePubsub.publish: Channel closed"]
    /\ active (chan w') = false
    /\ clients (chan w') = clients (chan w)
    /\ (Js.truthy data || Js.truthy_str evName = true ->
        r = Some (nextID (chan w))
        /\ nextID (chan w') = nextID (chan w) + 1
        /\ messages (chan w')
           = keep_last (historySize (options (chan w)))
               (messages (chan w) ++ [published (nextID (chan w)) data evName]))
    /\ (Js.truthy data || Js.truthy_str evName = false ->
        r = None /\ chan w' = chan w).
Proof.
  intros Hact Hok Hfuel.
  destruct (publish_returns fuel w data evName Hok Hfuel)
    as (w' & Hpub & Hch & Hlogs).
  exists (publish_ret (chan w) data evName), w'.
  split; [exact Hpub|]. split.
  { rewrite Hlogs. unfold publish_logs. by rewrite Hact. }
  rewrite Hch. unfold publish_ret, publish_chan.
  destruct (is_ping data evName) eqn:Hping.
  - split; [exact Hact|]. split; [reflexivity|]. split; [|done].
    intros H. apply truthy_not_ping in H. congruence.
  - split; [exact Hact|]. split; [reflexivity|]. split; [done|].
    intros H. exfalso. apply truthy_not_ping in Hping. congruence.
Qed.

Lemma publish_after_close_witness :
  active (chan closed_channel) = false
  /\ history_ok (chan closed_channel) = true
  /\ (2 <= 2)%nat
  /\ exists r w',
       publish 2 closed_channel (Js.Str "a") (Some "ev"%string) = Some (r, w')
       /\ logs w' = logs closed_channel ++ [LogWarn "ssePubsub.publish: Channel closed"]
       /\ active (chan w') = false
       /\ (Js.truthy (Js.Str "a") || Js.truthy_str (Some "ev"%string) = true ->
           r = Some (nextID (chan closed_channel))).
Proof.
  split; [reflexivity|]. split; [reflexivity|]. split; [lia|].
  destruct (publish_after_close 2 closed_channel (Js.Str "a") (Some "ev"%string))
    as (r & w' & Hpub & Hlogs & Hact & _ & Hid & _);
    [reflexivity | reflexivity | lia |].
  exists r, w'. split; [exact Hpub|]. split; [exact Hlogs|].
  split; [exact Hact|]. intros H. apply (proj1 (Hid H)).
Defined.

(** ** C8: unsubscribing twice *)




Lemma calls_on_unsubscribe (w : World) (c : Connection) (r : nat) :
  calls_on (unsubscribe w c) r
  = if decide (res c = r) then calls_on w r ++ [ResEnd] else calls_on w r.
Proof.
  unfold unsubscribe.
  change (calls_on (set_chan ?f ?x) r) with (calls_on x r).
  rewrite calls_on_res_call.
  case_decide as E; [subst|]; by rewrite calls_on_log_when.
Qed.



(** ** C9: the [Last-Event-ID] header *)






(** A number at the start is read, whatever follows it. *)
Example header_with_trailing_text :
  lastID (header "12abc") = Some 12 /\ lastID (header " 7 ") = Some 7
  /\ lastID (header "-3") = Some (-3) /\ lastID (header "x1") = None.
Proof. repeat split; reflexivity. Qed.

(** ** C1: replay on [subscribe] *)

Lemma slice_from_length {A} (start : Z) (l : list A) :
  (length (Js.slice_from start l) <= length l)%nat.
Proof. unfold Js.slice_from. rewrite length_drop. lia. Qed.

Lemma filter_length_le {A} (f : A -> bool) (l : list A) :
  (length (List.filter f l) <= length l)%nat.
Proof.
  induction l as [|x l IH]; simpl; [lia|]. destruct (f x); simpl; lia.
Qed.

Lemma replayed_length (ch : Channel) (c : Connection) :
  (length (replayed ch c) <= length (messages ch))%nat.
Proof.
  unfold replayed. destruct (replay_depth ch (req c) =? 0); simpl; [lia|].
  etrans; [apply slice_from_length | apply filter_length_le].
Qed.

(** In a history of consecutive ids, the entries after [k] are a suffix. *)
Lemma ids_from_after (k : Z) (ms : list Message) :
  forall a, ids_from a ms = true ->
  List.filter (fun m => k <? id m) ms = drop (Z.to_nat (k + 1 - a)) ms.
Proof.
  induction ms as [|m ms IH]; intros a H; simpl in *.
  - by rewrite drop_nil.
  - apply andb_prop in H as [Hm H]. apply Z.eqb_eq in Hm.
    rewrite (IH _ H). destruct (Z.ltb_spec k (id m)) as [E|E].
    + replace (Z.to_nat (k + 1 - a)) with 0%nat by lia.
      replace (Z.to_nat (k + 1 - (a + 1))) with 0%nat by lia. reflexivity.
    + replace (Z.to_nat (k + 1 - a)) with (S (Z.to_nat (k + 1 - (a + 1)))) by lia.
      reflexivity.
Qed.

(** Where the replay is right: a connection without filter and a last id
    that is not ahead of the channel get the entries after that id. *)
Lemma replay_after_last_id (ch : Channel) (c : Connection) (k : Z) :
  history_ok ch = true ->
  events c = None ->
  lastID (req c) = Some k ->
  k <= nextID ch - 1 ->
  replayed ch c = List.filter (fun m => k <? id m) (messages ch).
Proof.
  intros Hok Hev Hk Hle. apply history_ok_inv in Hok as (H1 & H2 & H3).
  rewrite (ids_from_after k _ _ H3).
  unfold replayed, replay_depth. rewrite Hk.
  rewrite (filter_all (replay_filter c))
    by (intros m; unfold replay_filter; by rewrite Hev).
  destruct (Z.eqb_spec (nextID ch - 1 - k) 0) as [E|E].
  - symmetry. apply drop_ge. lia.
  - unfold Js.slice_from.
    destruct (Z.ltb_spec (0 - (nextID ch - 1 - k)) 0) as [E'|E']; [|lia].
    f_equal. lia.
Qed.

(** C1, at an input where the code departs from it.  A channel of history
    size 3 published the ids 1, 2 and 3; a client comes with
    [Last-Event-ID: 5], an id ahead of the channel (one it got from an
    earlier run of the server).  The depth is -2, which is truthy, and
    [slice(0 - rewind)] is [slice(2)]: the entry of id 3 is replayed, though
    no entry has an id above 5. *)
Theorem replay_with_id_ahead :
  (fun '(ids, w) =>
     let c := {| conn_id := 0; req := header "5"; res := 0; events := None |} in
     (nextID (chan w), map id (messages (chan w)),
      replay_depth (chan w) (req c), map id (replayed (chan w) c)))
    <$> run 2 (construct (history_of 3) false) abc
  = Some (4, [1; 2; 3], -2, [3]).
Proof. vm_compute. reflexivity. Qed.

(** The replay counts after filtering: with the filter [foo] and the
    history foo, bar, bar, a client that saw id 1 gets id 1 again. *)
Example replay_counts_filtered_entries :
  (fun '(ids, w) =>
     let c := {| conn_id := 0; req := header "1"; res := 0;
                 events := Some [PString "foo"] |} in
     (map id (messages (chan w)), map id (replayed (chan w) c)))
    <$> run 2 (construct (history_of 3) false)
          [OpPublish (Js.Str "a") (Some "foo"%string);
           OpPublish (Js.Str "b") (Some "bar"%string);
           OpPublish (Js.Str "c") (Some "bar"%string)]
  = Some ([1; 2; 3], [1]).
Proof. vm_compute. reflexivity. Qed.

(** ** C10: defaults *)

(** C10. The constructor gives every omitted option its default: 30000,
    0, 10000, 1, 1 and 0; [nextID] starts at [startId]. With the default
    history size, in every state the channel reaches the history holds at
    most one message, no [subscribe] replays more than one, and after a
    publish that is not a ping the history is that one message. *)
Theorem constructor_defaults (p : PartialOptions) (verbose : bool)
    (fuel : nat) (ops : list Op) :
  (p_pingInterval p = None ->
   pingInterval (options (chan (construct p verbose))) = 30000)
  /\ (p_maxStreamDuration p = None ->
      maxStreamDuration (options (chan (construct p verbose))) = 0)
  /\ (p_clientRetryInterval p = None ->
      clientRetryInterval (options (chan (construct p verbose))) = 10000)
  /\ (p_startId p = None -> startId (options (chan (construct p verbose))) = 1)
  /\ (p_historySize p = None ->
      historySize (options (chan (construct p verbose))) = 1)
  /\ (p_rewind p = None -> rewind (options (chan (construct p verbose))) = 0)
  /\ nextID (chan (construct p verbose))
     = startId (options (chan (construct p verbose)))
  /\ (p_historySize p = None -> (2 <= fuel)%nat ->
      exists ids w,
        run fuel (construct p verbose) ops = Some (ids, w)
        /\ (length (messages (chan w)) <= 1)%nat
        /\ (forall c, (length (replayed (chan w) c) <= 1)%nat)
        /\ (forall data evName,
              Js.truthy data || Js.truthy_str evName = true ->
              exists w',
                publish fuel w data evName = Some (Some (nextID (chan w)), w')
                /\ messages (chan w') = [published (nextID (chan w)) data evName])).
Proof.
  repeat (split; [by (simpl; intros ->)|]). split; [reflexivity|].
  intros Hsize Hfuel.
  assert (Hone : historySize (resolve p) = 1) by (simpl; by rewrite Hsize).
  destruct (run_total fuel ops Hfuel (construct p verbose))
    as (ids & w & Hrun & Hok & Hopt & _).
  { apply history_ok_construct. lia. }
  change (options (chan (construct p verbose))) with (resolve p) in Hopt.
  pose proof (history_ok_inv _ Hok) as (_ & Hlen & _).
  rewrite Hopt, Hone in Hlen.
  exists ids, w. split; [exact Hrun|]. split; [lia|]. split.
  - intros c. pose proof (replayed_length (chan w) c). lia.
  - intros data evName Hdata. apply truthy_not_ping in Hdata.
    destruct (publish_returns fuel w data evName Hok Hfuel) as (w' & Hpub & Hch & _).
    unfold publish_ret, publish_chan in *. rewrite Hdata in *.
    exists w'. split; [exact Hpub|]. rewrite Hch, Hopt, Hone.
    cbn [messages with_messages]. unfold keep_last. rewrite length_app.
    simpl length.
    replace (length (messages (chan w)) + 1 - Z.to_nat 1)%nat
      with (length (messages (chan w))) by lia.
    apply drop_app_length.
Qed.

Lemma constructor_defaults_witness :
  options (chan (construct no_options false))
  = {| pingInterval := 30000; maxStreamDuration := 0;
       clientRetryInterval := 10000; startId := 1; historySize := 1;
       rewind := 0 |}
  /\ exists ids w,
       run 2 (construct no_options false) abc = Some (ids, w)
       /\ (length (messages (chan w)) <= 1)%nat
       /\ (forall c, (length (replayed (chan w) c) <= 1)%nat).
Proof.
  split; [reflexivity|].
  destruct (constructor_defaults no_options false 2 abc)
    as (_ & _ & _ & _ & _ & _ & _ & H).
  destruct (H eq_refl) as (ids & w & Hrun & Hlen & Hrep & _); [lia|].
  exists ids, w. by repeat split.
Defined.

(** ** C7: the rendered block *)


Lemma append_assoc (a b c : string) : (a ^^ b) ^^ c = a ^^ b ^^ c.
Proof.
  induction a as [|x a IH]; [reflexivity|].
  change (String x ((a ^^ b) ^^ c) = String x (a ^^ b ^^ c)). by rewrite IH.
Qed.

Lemma append_empty_r (a : string) : a ^^ EmptyString = a.
Proof.
  induction a as [|x a IH]; [reflexivity|].
  change (String x (a ^^ EmptyString) = String x a). by rewrite IH.
Qed.

Lemma split_from_nonempty (s : string) :
  forall b, Js.split_from b s <> [].
Proof.
  induction s as [|c s IH]; intros b; simpl; [done|].
  destruct (Js.is_newline c).
  - destruct b; [apply IH | done].
  - by destruct (Js.split_from false s).
Qed.


Lemma join_lines (pieces : list string) :
  pieces <> [] ->
  Js.join LF (map (fun str => "data: " ^^ str) pieces) ^^ LF
  = concat_strings (map (fun piece => "data: " ^^ piece ^^ LF) pieces).
Proof.
  induction pieces as [|x rest IH]; intros Hne; [done|].
  destruct rest as [|y rest].
  - cbn [map Js.join concat_strings]. rewrite append_empty_r.
    apply (append_assoc "data: " x LF).
  - change (Js.join LF (map (fun str => "data: " ^^ str) (x :: y :: rest)))
      with (("data: " ^^ x) ^^ LF
            ^^ Js.join LF (map (fun str => "data: " ^^ str) (y :: rest))).
    change (concat_strings
              (map (fun piece => "data: " ^^ piece ^^ LF) (x :: y :: rest)))
      with (("data: " ^^ x ^^ LF)
            ^^ concat_strings
                 (map (fun piece => "data: " ^^ piece ^^ LF) (y :: rest))).
    rewrite !append_assoc, IH by done. reflexivity.
Qed.

Lemma join_lines_nonempty (pieces : list string) :
  pieces <> [] ->
  Js.string_nonempty (Js.join LF (map (fun str => "data: " ^^ str) pieces)) = true.
Proof. destruct pieces as [|x [|y rest]]; intros H; done. Qed.

Lemma data_lines_block (data : Js.value) :
  (if Js.string_nonempty (data_lines data) then data_lines data else "data: ")
  ^^ LF
  = concat_strings (map (fun piece => "data: " ^^ piece ^^ LF)
                        (Js.split_newlines (payload_text data))).
Proof.
  unfold data_lines, payload_text.
  set (d := if Js.typeof_object data then Js.Str (Js.JSON_stringify data) else data).
  destruct (Js.truthy d).
  - pose proof (split_from_nonempty (Js.to_string d) false) as Hne.
    fold (Js.split_newlines (Js.to_string d)) in Hne.
    rewrite join_lines_nonempty by exact Hne. by apply join_lines.
  - reflexivity.
Qed.


(** What the falsy values and [null] give. *)
Example render_falsy_and_null :
  render 1 (Some "ev"%string) (Js.Num 0)
  = "id: 1 " ^^ LF ^^ "event: ev" ^^ LF ^^ "data: " ^^ LF ^^ LF
  /\ render 1 (Some "ev"%string) Js.Null
     = "id: 1 " ^^ LF ^^ "event: ev" ^^ LF ^^ "data: null" ^^ LF ^^ LF
  /\ render 1 None (Js.Object "{}")
     = "id: 1 " ^^ LF ^^ "data: {}" ^^ LF ^^ LF.
Proof. repeat split; reflexivity. Qed.


(** * Further properties of the channel *)

(** ** [close()] *)

Lemma calls_on_close (w : World) (r : nat) :
  calls_on (close w) r
  = calls_on w r
    ++ repeat ResEnd (length (List.filter (fun c => (res c =? r)%nat)
                                (clients (chan w)))).
Proof.
  rewrite <- call_all_calls. unfold close.
  destruct (call_all_frame ResEnd (clients (chan w)) w) as (Hch & _).
  set (w1 := call_all ResEnd (clients (chan w)) w) in *.
  simpl. by destruct (pingTimer (chan w1)).
Qed.

(** X1. [close()] makes one call of [end()] on the response of every
    subscriber and no call on any other response, empties the subscriber
    set and the history, so that the count is 0 and nothing is replayed to
    a later subscriber, and marks the channel inactive; [nextID] and the
    options stay. *)
Theorem close_ends_every_subscriber (w : World) :
  responses_distinct (chan w) = true ->
  (forall c, In c (clients (chan w)) ->
     calls_on (close w) (res c) = calls_on w (res c) ++ [ResEnd]
     /\ finished (close w) (res c) = true)
  /\ (forall r, ~ In r (map res (clients (chan w))) ->
        calls_on (close w) r = calls_on w r)
  /\ getSubscriberCount (close w) = 0%nat
  /\ messages (chan (close w)) = []
  /\ active (chan (close w)) = false
  /\ nextID (chan (close w)) = nextID (chan w)
  /\ options (chan (close w)) = options (chan w)
  /\ (forall c, replayed (chan (close w)) c = []).
Proof.
  intros Hd. split; [|split].
  - intros c Hin.
    assert (Hc : calls_on (close w) (res c) = calls_on w (res c) ++ [ResEnd]).
    { rewrite calls_on_close, (holders_of_own _ c Hd Hin). reflexivity. }
    split; [exact Hc|]. unfold finished. rewrite Hc, existsb_app. simpl.
    apply orb_true_r.
  - intros r Hr. rewrite calls_on_close.
    pose proof (holders_of_none _ r Hr (fun _ => true)) as Hnone.
    rewrite (filter_all (fun _ => true)) in Hnone by done.
    rewrite Hnone. simpl. by rewrite app_nil_r.
  - unfold getSubscriberCount. rewrite close_chan. simpl.
    repeat split; try reflexivity.
    intros c. unfold replayed. simpl.
    destruct (replay_depth _ (req c) =? 0); [reflexivity|].
    unfold Js.slice_from. apply drop_nil.
Qed.

Lemma close_ends_every_subscriber_witness :
  responses_distinct (chan two_subscribers) = true
  /\ getSubscriberCount two_subscribers = 2%nat
  /\ getSubscriberCount (close two_subscribers) = 0%nat
  /\ (forall c, In c (clients (chan two_subscribers)) ->
        calls_on (close two_subscribers) (res c)
        = calls_on two_subscribers (res c) ++ [ResEnd]
        /\ finished (close two_subscribers) (res c) = true).
Proof.
  split; [reflexivity|]. split; [reflexivity|].
  destruct (close_ends_every_subscriber two_subscribers) as (H1 & _ & H3 & _);
    [reflexivity|].
  split; [exact H3 | exact H1].
Defined.

(** X2. A second [close()] changes nothing: no response gets a call, the
    channel and the timer are as the first left them. *)
Theorem close_twice (w : World) : close (close w) = close w.
Proof.
  unfold close at 1.
  assert (Hcs : clients (chan (close w)) = []) by (by rewrite close_chan).
  rewrite Hcs. unfold call_all. simpl fold_left.
  assert (Hrun : pingTimer (chan (close w)) = true -> pingRunning (close w) = false).
  { unfold close.
    destruct (call_all_frame ResEnd (clients (chan w)) w) as (Hch & _).
    set (w1 := call_all ResEnd (clients (chan w)) w) in *.
    simpl. destruct (pingTimer (chan w1)) eqn:E; simpl; [done | congruence]. }
  assert (Hms : messages (chan (close w)) = []) by (by rewrite close_chan).
  assert (Hact : active (chan (close w)) = false) by (by rewrite close_chan).
  destruct (close w) as [[n cs ms a t o v] rs lg run tm al]. simpl in *.
  subst. unfold set_chan. simpl.
  destruct t; simpl; [by rewrite Hrun | reflexivity].
Qed.

(** ** [subscribe] and [unsubscribe] *)

Lemma fst_subscribe (w : World) (rq : Request) (rs : nat)
    (evs : option (list Pattern)) :
  fst (subscribe w rq rs evs)
  = {| conn_id := allocated w; req := rq; res := rs; events := evs |}.
Proof.
  unfold subscribe. simpl. f_equal.
  destruct (verboseDebugging (chan w)); simpl; by destruct (active (chan w)).
Qed.

Lemma allocated_subscribe (w : World) (rq : Request) (rs : nat)
    (evs : option (list Pattern)) :
  allocated (snd (subscribe w rq rs evs)) = S (allocated w).
Proof.
  unfold subscribe.
  set (w0 := log_when _ _ (log_when _ _ w)).
  assert (Hal : allocated w0 = allocated w).
  { subst w0. destruct (verboseDebugging (chan w)); simpl;
      by destruct (active (chan w)). }
  clearbody w0. simpl.
  destruct (maxStreamDuration (options (chan w0)) =? 0); simpl; by rewrite Hal.
Qed.

Lemma allocated_unsubscribe (w : World) (c : Connection) :
  allocated (unsubscribe w c) = allocated w.
Proof. unfold unsubscribe. by destruct (verboseDebugging (chan w)). Qed.

Lemma allocated_close (w : World) : allocated (close w) = allocated w.
Proof.
  unfold close.
  destruct (call_all_frame ResEnd (clients (chan w)) w) as (_ & _ & Hal).
  set (w1 := call_all ResEnd (clients (chan w)) w) in *.
  simpl. by destruct (pingTimer (chan w1)).
Qed.

Lemma publish_tail_frame (fuel : nat) (ret : option Z) (evName : option string)
    (out : string) (w : World) (r : option Z) (w' : World) :
  publish_tail fuel ret evName out w = Some (r, w') ->
  clients (chan w') = clients (chan w) /\ allocated w' = allocated w.
Proof.
  unfold publish_tail, fan_out.
  set (cs := List.filter (publish_filter evName) (clients (chan w))).
  destruct (call_all_frame (ResWrite out) cs w) as (Hch & _ & Hal).
  destruct (shift_while fuel _ _); [|done].
  intros [= <- <-]. simpl. by rewrite Hch, Hal.
Qed.

(** [publish] leaves the subscriber set alone. *)
Lemma publish_frame (fuel : nat) (w : World) (data : Js.value)
    (evName : option string) (r : option Z) (w' : World) :
  publish fuel w data evName = Some (r, w') ->
  clients (chan w') = clients (chan w) /\ allocated w' = allocated w.
Proof.
  unfold publish. fold (is_ping data evName).
  set (w0 := log_when _ _ (log_when _ _ w)).
  assert (H0 : clients (chan w0) = clients (chan w) /\ allocated w0 = allocated w).
  { subst w0. destruct (verboseDebugging (chan w)); simpl;
      by destruct (active (chan w)). }
  clearbody w0. destruct H0 as [Hcs Hal].
  destruct (is_ping data evName).
  - destruct (length (clients (chan w0)) =? 0)%nat.
    + intros [= <- <-]. done.
    + intros H. apply publish_tail_frame in H as [-> ->]. done.
  - intros H. apply publish_tail_frame in H as [-> ->]. done.
Qed.

Lemma fresh_ok_weaken (cs : list Connection) (n m : nat) :
  (n <= m)%nat ->
  forallb (fun c => (conn_id c <? n)%nat) cs = true ->
  forallb (fun c => (conn_id c <? m)%nat) cs = true.
Proof.
  intros Hle. rewrite !forallb_forall. intros H c Hin.
  specialize (H c Hin). apply Nat.ltb_lt in H. apply Nat.ltb_lt. lia.
Qed.

Lemma fresh_ok_delete (c : Connection) (cs : list Connection) (n : nat) :
  forallb (fun c => (conn_id c <? n)%nat) cs = true ->
  forallb (fun c => (conn_id c <? n)%nat) (set_delete c cs) = true.
Proof.
  rewrite !forallb_forall. intros H c' Hin.
  apply H. unfold set_delete in Hin. by apply filter_In in Hin as [? _].
Qed.

Lemma filter_all_in {A} (f : A -> bool) (l : list A) :
  (forall x, In x l -> f x = true) -> List.filter f l = l.
Proof.
  induction l as [|x l IH]; intros H; simpl; [done|].
  rewrite (H x) by (by left). f_equal. apply IH. intros y Hy. apply H. by right.
Qed.

(** An allocated identity is not among the subscribers. *)
Lemma set_add_fresh (c : Connection) (cs : list Connection) :
  forallb (fun c' => (conn_id c' <? conn_id c)%nat) cs = true ->
  set_add c cs = cs ++ [c].
Proof.
  intros H. unfold set_add.
  replace (existsb (fun c' => (conn_id c' =? conn_id c)%nat) cs) with false;
    [reflexivity|].
  symmetry. apply not_true_is_false. intros Hex.
  apply existsb_exists in Hex as (c' & Hin & Heq).
  rewrite forallb_forall in H. specialize (H c' Hin).
  apply Nat.ltb_lt in H. apply Nat.eqb_eq in Heq. lia.
Qed.

Lemma set_delete_fresh (c : Connection) (cs : list Connection) :
  forallb (fun c' => (conn_id c' <? conn_id c)%nat) cs = true ->
  set_delete c (cs ++ [c]) = cs.
Proof.
  intros H. unfold set_delete. rewrite List.filter_app. simpl.
  rewrite Nat.eqb_refl. simpl. rewrite app_nil_r.
  apply filter_all_in. intros c' Hin.
  rewrite forallb_forall in H. specialize (H c' Hin).
  apply Nat.ltb_lt in H. apply negb_true_iff, Nat.eqb_neq. lia.
Qed.

Lemma fresh_ok_step (fuel : nat) (w : World) (op : Op) (r : option Z) (w' : World) :
  fresh_ok w = true -> step fuel w op = Some (r, w') -> fresh_ok w' = true.
Proof.
  unfold fresh_ok. intros Hok.
  destruct op as [data evName|rq rs evs|c| |c|c]; cbn [step]; intros H.
  - apply publish_frame in H as [-> ->]. exact Hok.
  - assert (w' = snd (subscribe w rq rs evs)) as -> by congruence.
    rewrite subscribe_chan, allocated_subscribe. cbn [clients with_clients].
    rewrite set_add_fresh by (by rewrite fst_subscribe).
    rewrite forallb_app, fst_subscribe. cbn [forallb conn_id].
    rewrite (fresh_ok_weaken _ (allocated w)) by (lia || exact Hok).
    replace (allocated w <? S (allocated w))%nat with true; [reflexivity|].
    symmetry. apply Nat.ltb_lt. lia.
  - assert (w' = unsubscribe w c) as -> by congruence.
    rewrite unsubscribe_chan, allocated_unsubscribe. cbn [clients with_clients].
    by apply fresh_ok_delete.
  - assert (w' = close w) as -> by congruence. by rewrite close_chan.
  - assert (w' = on_timeout w c) as -> by congruence.
    unfold on_timeout. destruct (finished w (res c)); [exact Hok|].
    rewrite unsubscribe_chan, allocated_unsubscribe. cbn [clients with_clients].
    rewrite chan_log_when.
    replace (allocated (log_when _ _ w)) with (allocated w)
      by (by destruct (verboseDebugging (chan w))).
    by apply fresh_ok_delete.
  - assert (w' = on_close w c) as -> by congruence.
    unfold on_close.
    rewrite unsubscribe_chan, allocated_unsubscribe. cbn [clients with_clients].
    rewrite chan_log_when.
    replace (allocated (log_when _ _ w)) with (allocated w)
      by (by destruct (verboseDebugging (chan w))).
    by apply fresh_ok_delete.
Qed.

Lemma fresh_ok_run (fuel : nat) (ops : list Op) :
  forall w ids w',
  fresh_ok w = true -> run fuel w ops = Some (ids, w') -> fresh_ok w' = true.
Proof.
  induction ops as [|op ops IH]; intros w ids w' Hok; simpl.
  - by intros [= <- <-].
  - destruct (step fuel w op) as [[r w1]|] eqn:Hstep; [|done].
    destruct (run fuel w1 ops) as [[ids1 w2]|] eqn:Hrun; [|done].
    intros [= <- <-]. eapply IH; [|exact Hrun].
    by eapply fresh_ok_step.
Qed.

Lemma fold_append (l : list Message) :
  forall init, fold_left (fun body m => body ^^ output m) l init
               = init ^^ concat_strings (map output l).
Proof.
  induction l as [|m l IH]; intros init; simpl.
  - by rewrite append_empty_r.
  - by rewrite IH, append_assoc.
Qed.

Lemma calls_on_res_call_eq (r : nat) (k : ResCall) (w : World) :
  calls_on (res_call r k w) r = calls_on w r ++ [k].
Proof. rewrite calls_on_res_call. by case_decide. Qed.

Lemma calls_on_res_call_ne (r r' : nat) (k : ResCall) (w : World) :
  r <> r' -> calls_on (res_call r k w) r' = calls_on w r'.
Proof. intros H. rewrite calls_on_res_call. by case_decide. Qed.

Lemma calls_on_set_chan (f : Channel -> Channel) (w : World) (r : nat) :
  calls_on (set_chan f w) r = calls_on w r.
Proof. reflexivity. Qed.

Lemma chan_res_call (r : nat) (k : ResCall) (w : World) :
  chan (res_call r k w) = chan w.
Proof. reflexivity. Qed.

Lemma calls_on_rebuild (x : World) (ch : Channel) (lg : list LogEntry)
    (pr : bool) (tm : list Connection) (n r : nat) :
  calls_on {| chan := ch; responses := responses x; logs := lg;
              pingRunning := pr; timeouts := tm; allocated := n |} r
  = calls_on x r.
Proof. reflexivity. Qed.

Lemma calls_on_subscribe (w : World) (rq : Request) (rs : nat)
    (evs : option (list Pattern)) (r : nat) :
  calls_on (snd (subscribe w rq rs evs)) r
  = if decide (rs = r)
    then calls_on w r
         ++ [ResWriteHead 200; ResFlushHeaders;
             ResWrite (subscribe_body (chan w) (fst (subscribe w rq rs evs)));
             ResOn "close"; ResOn "error"; ResOn "finish"]
    else calls_on w r.
Proof.
  rewrite fst_subscribe. unfold subscribe.
  set (w0 := log_when _ _ (log_when _ _ w)).
  assert (Hch : chan w0 = chan w) by (subst w0; by rewrite !chan_log_when).
  assert (Hal : allocated w0 = allocated w).
  { subst w0. destruct (verboseDebugging (chan w)); simpl;
      by destruct (active (chan w)). }
  assert (Hcalls : forall q, calls_on w0 q = calls_on w q)
    by (intros q; subst w0; by rewrite !calls_on_log_when).
  clearbody w0. cbv zeta. cbn [snd].
  destruct (decide (rs = r)) as [<-|Hne].
  - rewrite !calls_on_res_call_eq.
    destruct (_ =? 0);
      rewrite ?calls_on_rebuild, calls_on_set_chan, !calls_on_res_call_eq,
        calls_on_rebuild, !chan_res_call;
      cbn [chan]; rewrite Hch, Hal, Hcalls, <- !app_assoc; reflexivity.
  - rewrite !calls_on_res_call_ne by exact Hne.
    destruct (_ =? 0);
      rewrite ?calls_on_rebuild, calls_on_set_chan,
        !calls_on_res_call_ne by exact Hne;
      rewrite calls_on_rebuild; apply Hcalls.
Qed.

(** X3. [subscribe] writes, on the response it was given and in this
    order: the head with status 200, the flush of the headers, one body,
    and the three handlers; the body is the line [retry: <interval>]
    and an empty line, followed by the stored blocks of the replayed
    messages, unchanged. No other response gets a call, and the
    history and [nextID] stay as they were. *)
Theorem subscribe_handshake (w : World) (rq : Request) (rs : nat)
    (evs : option (list Pattern)) :
  let c := fst (subscribe w rq rs evs) in
  let w' := snd (subscribe w rq rs evs) in
  calls_on w' rs
  = calls_on w rs
    ++ [ResWriteHead 200; ResFlushHeaders;
        ResWrite (("retry: " ^^ Js.string_of_Z (clientRetryInterval (options (chan w)))
                   ^^ LF ^^ LF)
                  ^^ concat_strings (map output (replayed (chan w) c)));
        ResOn "close"; ResOn "error"; ResOn "finish"]
  /\ (forall r, r <> rs -> calls_on w' r = calls_on w r)
  /\ messages (chan w') = messages (chan w)
  /\ nextID (chan w') = nextID (chan w)
  /\ (req c = rq /\ res c = rs /\ events c = evs).
Proof.
  intros c w'. subst c w'. split; [|split].
  - rewrite calls_on_subscribe. case_decide; [|done].
    unfold subscribe_body. by rewrite fold_append.
  - intros r Hr. rewrite calls_on_subscribe. case_decide; congruence.
  - rewrite subscribe_chan. cbn [messages nextID clients with_clients].
    split; [reflexivity|]. split; [reflexivity|]. by rewrite fst_subscribe.
Qed.

Lemma subscribe_handshake_witness :
  calls_on (snd (subscribe (construct no_options false) (header "0") 7 None)) 7
  = [ResWriteHead 200; ResFlushHeaders;
     ResWrite ("retry: 10000" ^^ LF ^^ LF);
     ResOn "close"; ResOn "error"; ResOn "finish"].
Proof.
  destruct (subscribe_handshake (construct no_options false) (header "0") 7 None)
    as (H & _).
  rewrite H. reflexivity.
Defined.

(** X4. In every state a channel reaches, [subscribe] adds the new
    connection at the end of the subscriber set, so that the count grows
    by one, and [unsubscribe] of that connection gives the set back as it
    was and ends the response of the connection. *)
Theorem subscribe_then_unsubscribe (p : PartialOptions) (verbose : bool)
    (fuel : nat) (ops : list Op) (rq : Request) (rs : nat)
    (evs : option (list Pattern)) :
  0 <= historySize (resolve p) ->
  (2 <= fuel)%nat ->
  exists ids w,
    run fuel (construct p verbose) ops = Some (ids, w)
    /\ let c := fst (subscribe w rq rs evs) in
       let w' := snd (subscribe w rq rs evs) in
       clients (chan w') = clients (chan w) ++ [c]
       /\ getSubscriberCount w' = S (getSubscriberCount w)
       /\ clients (chan (unsubscribe w' c)) = clients (chan w)
       /\ getSubscriberCount (unsubscribe w' c) = getSubscriberCount w
       /\ finished (unsubscribe w' c) rs = true.
Proof.
  intros Hsize Hfuel.
  destruct (run_total fuel ops Hfuel (construct p verbose)
              (history_ok_construct p verbose Hsize))
    as (ids & w & Hrun & _).
  exists ids, w. split; [exact Hrun|].
  assert (Hfresh : fresh_ok w = true).
  { eapply fresh_ok_run; [|exact Hrun]. reflexivity. }
  unfold fresh_ok in Hfresh. cbv zeta.
  assert (Hadd : clients (chan (snd (subscribe w rq rs evs)))
                 = clients (chan w) ++ [fst (subscribe w rq rs evs)]).
  { rewrite subscribe_chan. cbn [clients with_clients].
    apply set_add_fresh. by rewrite fst_subscribe. }
  assert (Hdel : clients (chan (unsubscribe (snd (subscribe w rq rs evs))
                                  (fst (subscribe w rq rs evs))))
                 = clients (chan w)).
  { rewrite unsubscribe_chan. cbn [clients with_clients]. rewrite Hadd.
    apply set_delete_fresh. by rewrite fst_subscribe. }
  unfold getSubscriberCount. rewrite Hdel, Hadd, length_app. cbn [length].
  split; [reflexivity|]. split; [lia|]. split; [reflexivity|].
  split; [reflexivity|].
  unfold finished. rewrite calls_on_unsubscribe, fst_subscribe. cbn [res].
  case_decide; [|done]. rewrite existsb_app.
  apply orb_true_iff. right. reflexivity.
Qed.

Lemma subscribe_then_unsubscribe_witness :
  0 <= historySize (resolve (history_of 2))
  /\ (2 <= 2)%nat
  /\ exists ids w,
       run 2 (construct (history_of 2) false) abc = Some (ids, w)
       /\ clients (chan (unsubscribe (snd (subscribe w no_header 7 None))
                           (fst (subscribe w no_header 7 None))))
          = clients (chan w).
Proof.
  split; [simpl; lia|]. split; [lia|].
  destruct (subscribe_then_unsubscribe (history_of 2) false 2 abc no_header 7 None)
    as (ids & w & Hrun & _ & _ & Hdel & _); [simpl; lia | lia |].
  exists ids, w. split; [exact Hrun | exact Hdel].
Defined.

(** ** The timer of [maxStreamDuration] *)

(** X5. The timer does nothing for a response that was ended: when it
    fires after [unsubscribe] of the connection, or after [close()] for a
    subscriber of the channel, the state stays as it is, and [end()] is not
    called again. *)
Theorem timeout_after_end (w : World) (c : Connection) :
  on_timeout (unsubscribe w c) c = unsubscribe w c
  /\ (responses_distinct (chan w) = true -> In c (clients (chan w)) ->
      on_timeout (close w) c = close w)
  /\ (finished w (res c) = true -> on_timeout w c = w).
Proof.
  split; [|split].
  - unfold on_timeout.
    replace (finished (unsubscribe w c) (res c)) with true; [reflexivity|].
    symmetry. unfold finished. rewrite calls_on_unsubscribe.
    case_decide; [|done]. rewrite existsb_app. simpl. apply orb_true_r.
  - intros Hd Hin. unfold on_timeout.
    replace (finished (close w) (res c)) with true; [reflexivity|].
    symmetry. unfold finished.
    rewrite calls_on_close, (holders_of_own _ c Hd Hin), existsb_app. simpl.
    apply orb_true_r.
  - intros H. unfold on_timeout. by rewrite H.
Qed.

Lemma timeout_after_end_witness :
  responses_distinct (chan two_subscribers) = true
  /\ In foo_subscriber (clients (chan one_subscriber))
  /\ on_timeout (close one_subscriber) foo_subscriber = close one_subscriber
  /\ on_timeout (unsubscribe two_subscribers foo_subscriber) foo_subscriber
     = unsubscribe two_subscribers foo_subscriber.
Proof.
  split; [reflexivity|]. split; [left; reflexivity|]. split.
  - refine (proj1 (proj2 (timeout_after_end one_subscriber foo_subscriber)) _ _);
      [reflexivity | left; reflexivity].
  - exact (proj1 (timeout_after_end two_subscribers foo_subscriber)).
Defined.

(** ** Replay *)



Lemma replayed_suffix (ch : Channel) (c : Connection) :
  replayed ch c `suffix_of` List.filter (replay_filter c) (messages ch).
Proof.
  unfold replayed. destruct (replay_depth ch (req c) =? 0).
  - apply suffix_nil.
  - apply suffix_drop.
Qed.


(** What [slice(0 - rewind)] keeps. *)
Lemma slice_by_depth (ch : Channel) (c : Connection) :
  let matching := List.filter (replay_filter c) (messages ch) in
  let depth := replay_depth ch (req c) in
  (0 < depth -> replayed ch c = keep_last depth matching)
  /\ (depth = 0 -> replayed ch c = [])
  /\ (depth < 0 -> replayed ch c = drop (Z.to_nat (- depth)) matching)
  /\ (0 <= depth -> Z.of_nat (length (replayed ch c)) <= depth).
Proof.
  intros matching depth. unfold replayed. fold depth. fold matching.
  unfold Js.slice_from, keep_last.
  split; [|split; [|split]].
  - intros H. destruct (Z.eqb_spec depth 0); [lia|].
    destruct (Z.ltb_spec (0 - depth) 0); [|lia]. f_equal. lia.
  - intros ->. reflexivity.
  - intros H. destruct (Z.eqb_spec depth 0); [lia|].
    destruct (Z.ltb_spec (0 - depth) 0); [lia|].
    destruct (Z.le_gt_cases (0 - depth) (Z.of_nat (length matching))).
    + f_equal. lia.
    + rewrite !drop_ge by lia. reflexivity.
  - intros H. destruct (Z.eqb_spec depth 0); [simpl; lia|].
    destruct (Z.ltb_spec (0 - depth) 0); [|lia].
    rewrite length_drop. lia.
Qed.

(** X7. The depth decides how much is replayed. A positive depth [n]
    replays the last [n] entries that pass the filter (all of them when
    there are fewer), depth 0 replays nothing, and a negative depth [-n]
    replays the entries that pass the filter except the first [n]; with a
    depth of at least 0 no more than depth many messages are replayed. *)
Theorem replay_by_depth (ch : Channel) (c : Connection) :
  let matching := List.filter (replay_filter c) (messages ch) in
  let depth := replay_depth ch (req c) in
  (0 < depth -> replayed ch c = keep_last depth matching)
  /\ (depth = 0 -> replayed ch c = [])
  /\ (depth < 0 -> replayed ch c = drop (Z.to_nat (- depth)) matching)
  /\ (0 <= depth -> Z.of_nat (length (replayed ch c)) <= depth).
Proof.
  intros matching depth.
  destruct (slice_by_depth ch c) as (Hpos & Hzero & Hneg & Hbound).
  fold matching depth in Hpos, Hzero, Hneg, Hbound.
  split; [exact Hpos|]. split; [exact Hzero|]. split; [exact Hneg | exact Hbound].
Qed.

Lemma replay_by_depth_witness :
  0 < replay_depth (chan abc_world) (req (reconnecting "1"))
  /\ replayed (chan abc_world) (reconnecting "1")
     = keep_last (replay_depth (chan abc_world) (req (reconnecting "1")))
         (List.filter (replay_filter (reconnecting "1"))
            (messages (chan abc_world)))
  /\ map id (replayed (chan abc_world) (reconnecting "1")) = [2; 3].
Proof.
  split; [reflexivity|]. split; [|reflexivity].
  destruct (replay_by_depth (chan abc_world) (reconnecting "1")) as (Hpos & _).
  apply Hpos. reflexivity.
Defined.






(** ** Ids *)





(** ** Edge cases of [publish] *)

(** X10. With a negative [historySize] a call of [publish] that gets to
    the trimming loop (any call but a ping without subscribers) does not
    return, whatever the fuel: the loop shifts an empty array for ever. *)
Theorem negative_history_size_hangs (fuel : nat) (w : World) (data : Js.value)
    (evName : option string) :
  historySize (options (chan w)) < 0 ->
  is_ping data evName = false \/ clients (chan w) <> [] ->
  publish fuel w data evName = None.
Proof.
  intros Hneg Hloop. unfold publish. fold (is_ping data evName).
  set (w0 := log_when _ _ (log_when _ _ w)).
  assert (H0 : chan w0 = chan w).
  { subst w0. destruct (verboseDebugging (chan w)); simpl;
      by destruct (active (chan w)). }
  clearbody w0.
  assert (Htail : forall ret ev out x,
            options (chan x) = options (chan w) ->
            publish_tail fuel ret ev out x = None).
  { intros ret ev out x Hopt. unfold publish_tail, fan_out.
    match goal with |- context [call_all ?k ?cs ?y] =>
      destruct (call_all_frame k cs y) as (-> & _) end.
    rewrite Hopt. by rewrite shift_while_negative. }
  destruct (is_ping data evName).
  - destruct Hloop as [|Hcs]; [done|]. rewrite H0.
    destruct (clients (chan w)) as [|c0 cs0]; [done|]. simpl.
    apply Htail. by rewrite H0.
  - apply Htail. simpl. by rewrite H0.
Qed.

Lemma negative_history_size_hangs_witness :
  historySize (options (chan (construct (history_of (-1)) false))) < 0
  /\ publish 1000 (construct (history_of (-1)) false) (Js.Str "a") None = None.
Proof.
  split; [simpl; lia|].
  apply (negative_history_size_hangs 1000 (construct (history_of (-1)) false));
    [simpl; lia | left; reflexivity].
Defined.

(** X11. Without subscribers [publish] writes nowhere: in a state a
    channel reaches, whatever is published, every response keeps the
    calls it had. *)
Theorem publish_without_subscribers (fuel : nat) (w : World) (data : Js.value)
    (evName : option string) :
  history_ok (chan w) = true ->
  (2 <= fuel)%nat ->
  clients (chan w) = [] ->
  exists r w',
    publish fuel w data evName = Some (r, w')
    /\ (forall q, calls_on w' q = calls_on w q)
    /\ clients (chan w') = [].
Proof.
  intros Hok Hfuel Hcs.
  pose proof (history_ok_fuel _ _ Hok Hfuel) as Hen.
  pose proof (history_ok_inv _ Hok) as (H1 & _).
  destruct (is_ping data evName) eqn:Hping.
  - destruct (publish_ping_idle fuel w data evName Hping Hcs)
      as (w' & Hrun & Hch & Hres & _).
    exists None, w'. split; [exact Hrun|]. split.
    + intros q. unfold calls_on. by rewrite Hres.
    + by rewrite Hch.
  - destruct (publish_nonping_spec fuel w data evName Hping H1 Hen)
      as (w' & Hrun & Hch & Hcalls & _).
    exists (Some (nextID (chan w))), w'. split; [exact Hrun|]. split.
    + intros q. rewrite Hcalls, Hcs. unfold recipients_on. simpl.
      by rewrite app_nil_r.
    + by rewrite Hch.
Qed.

Lemma publish_without_subscribers_witness :
  history_ok (chan closed_channel) = true
  /\ (2 <= 2)%nat
  /\ clients (chan closed_channel) = []
  /\ exists r w',
       publish 2 closed_channel (Js.Str "a") (Some "ev"%string) = Some (r, w')
       /\ (forall q, calls_on w' q = calls_on closed_channel q)
       /\ clients (chan w') = [].
Proof.
  split; [reflexivity|]. split; [lia|]. split; [reflexivity|].
  apply (publish_without_subscribers 2 closed_channel); [reflexivity | lia | reflexivity].
Defined.

(** ** Edge cases of the filter *)

Lemma replayed_none_match (ch : Channel) (c : Connection) :
  (forall m, In m (messages ch) -> replay_filter c m = false) ->
  replayed ch c = [].
Proof.
  intros H. unfold replayed.
  destruct (replay_depth ch (req c) =? 0); [reflexivity|].
  replace (List.filter (replay_filter c) (messages ch)) with (@nil Message).
  - unfold Js.slice_from. apply drop_nil.
  - symmetry. induction (messages ch) as [|m ms IH]; simpl; [done|].
    rewrite (H m) by (by left). apply IH. intros m' Hm'. apply H. by right.
Qed.

(** X12. An empty array as filter is not the missing filter: a subscriber
    with [events = []] gets no named event, live or replayed, and still
    gets the pings. *)
Theorem empty_filter_matches_nothing (fuel : nat) (w : World) (c : Connection)
    (data : Js.value) (name : string) :
  history_ok (chan w) = true ->
  responses_distinct (chan w) = true ->
  (2 <= fuel)%nat ->
  In c (clients (chan w)) ->
  events c = Some [] ->
  Js.string_nonempty name = true ->
  (exists w',
     publish fuel w data (Some name) = Some (Some (nextID (chan w)), w')
     /\ calls_on w' (res c) = calls_on w (res c))
  /\ (exists w',
        publish fuel w Js.Undefined None = Some (None, w')
        /\ calls_on w' (res c) = calls_on w (res c) ++ [ResWrite ping_output])
  /\ replayed (chan w) c = [].
Proof.
  intros Hok Hd Hfuel Hin Hev Hname. split; [|split].
  - destruct (deliver_named fuel w c data name Hok Hd Hfuel Hin Hname)
      as (w' & Hrun & Hcalls).
    exists w'. split; [exact Hrun|]. rewrite Hcalls.
    unfold publish_filter. rewrite Hev. simpl. rewrite Hname. simpl.
    by rewrite app_nil_r.
  - destruct (ping_delivery fuel w Hok Hd Hfuel) as (w' & Hrun & _ & _ & Hcalls & _).
    exists w'. split; [exact Hrun|]. by apply Hcalls.
  - apply replayed_none_match. intros m _. unfold replay_filter. by rewrite Hev.
Qed.

Lemma empty_filter_matches_nothing_witness :
  history_ok (chan empty_filter_world) = true
  /\ responses_distinct (chan empty_filter_world) = true
  /\ (2 <= 2)%nat
  /\ In empty_filter_subscriber (clients (chan empty_filter_world))
  /\ events empty_filter_subscriber = Some []
  /\ Js.string_nonempty "ev" = true
  /\ exists w',
       publish 2 empty_filter_world (Js.Str "a") (Some "ev"%string)
       = Some (Some (nextID (chan empty_filter_world)), w')
       /\ calls_on w' (res empty_filter_subscriber)
          = calls_on empty_filter_world (res empty_filter_subscriber).
Proof.
  split; [reflexivity|]. split; [reflexivity|]. split; [lia|].
  split; [left; reflexivity|]. split; [reflexivity|]. split; [reflexivity|].
  apply (empty_filter_matches_nothing 2 empty_filter_world
           empty_filter_subscriber (Js.Str "a") "ev");
    [reflexivity | reflexivity | lia | left; reflexivity | reflexivity | reflexivity].
Defined.

(** X13. A message published without a name goes to every subscriber,
    whatever its filter, but it is stored under the empty name, and the
    replay filters on it: a subscriber none of whose filter entries matches
    the empty name gets the message live and is never replayed it. *)
Theorem unnamed_live_not_replayed (fuel : nat) (w : World) (c : Connection)
    (data : Js.value) (l : list Pattern) :
  history_ok (chan w) = true ->
  responses_distinct (chan w) = true ->
  (2 <= fuel)%nat ->
  In c (clients (chan w)) ->
  Js.truthy data = true ->
  events c = Some l ->
  existsb (pattern_matches EmptyString) l = false ->
  exists w',
    publish fuel w data None = Some (Some (nextID (chan w)), w')
    /\ calls_on w' (res c)
       = calls_on w (res c) ++ [ResWrite (render (nextID (chan w)) None data)]
    /\ replay_filter c (published (nextID (chan w)) data None) = false
    /\ forall c', events c' = events c ->
         ~ In (published (nextID (chan w)) data None) (replayed (chan w') c').
Proof.
  intros Hok Hd Hfuel Hin Hdata Hev Hno.
  pose proof (history_ok_fuel _ _ Hok Hfuel) as Hen.
  pose proof (history_ok_inv _ Hok) as (H1 & _).
  assert (Hping : is_ping data None = false)
    by (unfold is_ping; by rewrite Hdata).
  destruct (publish_nonping_spec fuel w data None Hping H1 Hen)
    as (w' & Hrun & _ & Hcalls & _).
  assert (Hfilter : forall c', events c' = events c ->
            replay_filter c' (published (nextID (chan w)) data None) = false).
  { intros c' Hc'. unfold replay_filter. rewrite Hc', Hev. exact Hno. }
  exists w'. split; [exact Hrun|]. split; [|split].
  - rewrite Hcalls, (recipients_on_own _ _ c Hd Hin). reflexivity.
  - by apply Hfilter.
  - intros c' Hc' Hrep.
    destruct (replayed_suffix (chan w') c') as [pre Hpre].
    assert (Hmem : In (published (nextID (chan w)) data None)
                     (List.filter (replay_filter c') (messages (chan w')))).
    { rewrite Hpre. apply in_or_app. by right. }
    apply filter_In in Hmem as [_ Hmem]. rewrite (Hfilter c' Hc') in Hmem.
    discriminate.
Qed.

Lemma unnamed_live_not_replayed_witness :
  history_ok (chan one_subscriber) = true
  /\ responses_distinct (chan one_subscriber) = true
  /\ (2 <= 2)%nat
  /\ In foo_subscriber (clients (chan one_subscriber))
  /\ Js.truthy (Js.Str "a") = true
  /\ events foo_subscriber = Some [PString "foo"]
  /\ existsb (pattern_matches EmptyString) [PString "foo"] = false
  /\ exists w',
       publish 2 one_subscriber (Js.Str "a") None
       = Some (Some (nextID (chan one_subscriber)), w')
       /\ calls_on w' (res foo_subscriber)
          = calls_on one_subscriber (res foo_subscriber)
            ++ [ResWrite (render (nextID (chan one_subscriber)) None (Js.Str "a"))]
       /\ replay_filter foo_subscriber
            (published (nextID (chan one_subscriber)) (Js.Str "a") None) = false.
Proof.
  split; [reflexivity|]. split; [reflexivity|]. split; [lia|].
  split; [left; reflexivity|]. split; [reflexivity|].
  split; [reflexivity|]. split; [reflexivity|].
  destruct (unnamed_live_not_replayed 2 one_subscriber foo_subscriber
              (Js.Str "a") [PString "foo"])
    as (w' & Hrun & Hcalls & Hfilter & _);
    [reflexivity | reflexivity | lia | left; reflexivity
     | reflexivity | reflexivity | reflexivity |].
  exists w'. split; [exact Hrun|]. split; [exact Hcalls | exact Hfilter].
Defined.

(** ** Subscribing to a closed channel *)

Lemma logs_res_call (r : nat) (k : ResCall) (w : World) :
  logs (res_call r k w) = logs w.
Proof. reflexivity. Qed.

Lemma logs_set_chan (f : Channel -> Channel) (w : World) :
  logs (set_chan f w) = logs w.
Proof. reflexivity. Qed.

Lemma logs_subscribe (w : World) (rq : Request) (rs : nat)
    (evs : option (list Pattern)) :
  logs (snd (subscribe w rq rs evs))
  = logs w
    ++ (if verboseDebugging (chan w)
        then [LogInfo "ssePubsub.subscribe: subscribe"] else [])
    ++ (if negb (active (chan w))
        then [LogWarn "ssePubsub.subscribe: Channel closed"] else []).
Proof.
  unfold subscribe.
  set (w0 := log_when _ _ (log_when _ _ w)).
  assert (Hlogs : logs w0 = logs w
              ++ (if verboseDebugging (chan w)
                  then [LogInfo "ssePubsub.subscribe: subscribe"] else [])
              ++ (if negb (active (chan w))
                  then [LogWarn "ssePubsub.subscribe: Channel closed"] else [])).
  { subst w0. rewrite !logs_log_when, chan_log_when. by rewrite <- app_assoc. }
  clearbody w0. cbv zeta. cbn [snd]. rewrite !logs_res_call.
  destruct (_ =? 0); cbn [logs]; rewrite logs_set_chan, !logs_res_call;
    cbn [logs]; exact Hlogs.
Qed.

(** X14. [subscribe] does not refuse a closed channel either: after
    [close()] it logs the warning, registers the connection all the same,
    as the only subscriber, and the next message published is written to
    its response. *)
Theorem subscribe_after_close (fuel : nat) (w : World) (rq : Request) (rs : nat)
    (data : Js.value) (evName : option string) :
  history_ok (chan w) = true ->
  (2 <= fuel)%nat ->
  Js.truthy data || Js.truthy_str evName = true ->
  let c := fst (subscribe (close w) rq rs None) in
  let w2 := snd (subscribe (close w) rq rs None) in
  clients (chan w2) = [c]
  /\ active (chan w2) = false
  /\ logs w2
     = logs (close w)
       ++ (if verboseDebugging (chan w)
           then [LogInfo "ssePubsub.subscribe: subscribe"] else [])
       ++ [LogWarn "ssePubsub.subscribe: Channel closed"]
  /\ exists w3,
       publish fuel w2 data evName = Some (Some (nextID (chan w)), w3)
       /\ calls_on w3 rs
          = calls_on w2 rs ++ [ResWrite (render (nextID (chan w)) evName data)].
Proof.
  intros Hok Hfuel Hdata. apply truthy_not_ping in Hdata. cbv zeta.
  assert (Hch : chan (snd (subscribe (close w) rq rs None))
                = with_clients [fst (subscribe (close w) rq rs None)]
                    (with_active false
                       (with_messages [] (with_clients [] (chan w))))).
  { by rewrite subscribe_chan, close_chan. }
  split; [by rewrite Hch|]. split; [by rewrite Hch|]. split.
  { rewrite logs_subscribe, close_chan. reflexivity. }
  assert (Hok2 : history_ok (chan (snd (subscribe (close w) rq rs None))) = true).
  { rewrite Hch, history_ok_with_clients. by apply history_ok_close. }
  pose proof (history_ok_fuel _ _ Hok2 Hfuel) as Hen.
  pose proof (history_ok_inv _ Hok2) as (H1 & _).
  destruct (publish_nonping_spec fuel _ data evName Hdata H1 Hen)
    as (w3 & Hrun & _ & Hcalls & _).
  exists w3. rewrite Hch in Hrun, Hcalls. split; [exact Hrun|].
  rewrite Hcalls. cbn [clients with_clients]. rewrite fst_subscribe.
  unfold recipients_on, publish_filter. cbn [List.filter events is_some negb res].
  rewrite orb_true_r. cbn [orb List.filter res]. rewrite Nat.eqb_refl. reflexivity.
Qed.

Lemma subscribe_after_close_witness :
  history_ok (chan one_subscriber) = true
  /\ (2 <= 2)%nat
  /\ Js.truthy (Js.Str "a") || Js.truthy_str None = true
  /\ clients (chan (snd (subscribe (close one_subscriber) no_header 9 None)))
     = [fst (subscribe (close one_subscriber) no_header 9 None)]
  /\ active (chan (snd (subscribe (close one_subscriber) no_header 9 None)))
     = false.
Proof.
  split; [reflexivity|]. split; [lia|]. split; [reflexivity|].
  destruct (subscribe_after_close 2 one_subscriber no_header 9 (Js.Str "a") None)
    as (H1 & H2 & _); [reflexivity | lia | reflexivity |].
  split; [exact H1 | exact H2].
Defined.

(** ** [listClients()] *)

Lemma rollup_lookup (ip : string) (cs : list Connection) :
  forall m : gmap string nat,
  fold_left
    (fun rollupByIP c =>
       <[ip_of c := S (default 0%nat (rollupByIP !! ip_of c))]> rollupByIP)
    cs m !! ip
  = if (count_ip ip cs =? 0)%nat then m !! ip
    else Some (count_ip ip cs + default 0 (m !! ip))%nat.
Proof.
  unfold count_ip. induction cs as [|c cs IH]; intros m; [reflexivity|].
  cbn [fold_left List.filter]. rewrite IH.
  destruct (String.eqb_spec (ip_of c) ip) as [E|E].
  - subst. rewrite lookup_insert_eq. cbn [length default]. clear IH.
    generalize (length (List.filter
                          (fun c0 => String.eqb (ip_of c0) (ip_of c)) cs)).
    intros n. unfold Datatypes.id. destruct n; simpl; f_equal; lia.
  - rewrite lookup_insert_ne by exact E. reflexivity.
Qed.

(** X15. [listClients()] maps an address to the number of subscribers with
    that address, the subscribers without address counted under
    [unknown]; an address no subscriber has is not a key, and no count is
    0. (The addresses are taken not to be property names that every
    object inherits.) *)
Theorem listClients_counts (w : World) (ip : string) :
  plain_addresses w = true ->
  listClients w !! ip
  = (if (count_ip ip (clients (chan w)) =? 0)%nat then None
     else Some (count_ip ip (clients (chan w))))
  /\ (listClients w !! ip = None
      <-> forall c, In c (clients (chan w)) -> ip_of c <> ip)
  /\ listClients w !! ip <> Some 0%nat.
Proof.
  intros _.
  assert (H : listClients w !! ip
              = if (count_ip ip (clients (chan w)) =? 0)%nat then None
                else Some (count_ip ip (clients (chan w)))).
  { unfold listClients. change (fold_left _ (clients (chan w)) ∅)
      with (fold_left
              (fun (rollupByIP : gmap string nat) c =>
                 <[ip_of c := S (default 0%nat (rollupByIP !! ip_of c))]> rollupByIP)
              (clients (chan w)) ∅).
    rewrite rollup_lookup, lookup_empty. cbn [default].
    by rewrite Nat.add_0_r. }
  split; [exact H|]. rewrite H. unfold count_ip.
  destruct (length _ =? 0)%nat eqn:E0.
  - apply Nat.eqb_eq in E0. split; [|done]. split; [|done].
    intros _ c Hin Hip.
    assert (Hmem : In c (List.filter (fun c => String.eqb (ip_of c) ip)
                           (clients (chan w)))).
    { apply filter_In. split; [exact Hin|]. by apply String.eqb_eq. }
    destruct (List.filter _ _); [done | discriminate].
  - apply Nat.eqb_neq in E0. split; [|congruence]. split; [done|].
    intros Hnone. exfalso.
    destruct (List.filter (fun c => String.eqb (ip_of c) ip) (clients (chan w)))
      as [|c0 l] eqn:Ef; [by apply E0|].
    assert (Hmem : In c0 (List.filter (fun c => String.eqb (ip_of c) ip)
                            (clients (chan w)))) by (rewrite Ef; by left).
    apply filter_In in Hmem as [Hin Hip]. apply String.eqb_eq in Hip.
    by apply (Hnone c0 Hin).
Qed.

Lemma listClients_counts_witness :
  plain_addresses two_subscribers = true
  /\ listClients two_subscribers !! "10.0.0.1"%string = Some 1%nat
  /\ listClients two_subscribers !! "unknown"%string = Some 1%nat
  /\ listClients two_subscribers !! "10.0.0.2"%string = None.
Proof.
  split; [reflexivity|].
  destruct (listClients_counts two_subscribers "10.0.0.1" eq_refl) as (H1 & _).
  destruct (listClients_counts two_subscribers "unknown" eq_refl) as (H2 & _).
  destruct (listClients_counts two_subscribers "10.0.0.2" eq_refl) as (H3 & _).
  rewrite H1, H2, H3. repeat split; reflexivity.
Defined.

(** ** The capability middleware *)

(** X16. The middleware calls [next()] once in every case, after what it
    does to the response; it sets the headers [x-sse-support: enabled] and
    [Access-Control-Expose-Headers: x-sse-support], in this order, exactly
    when [locals], [ctx] and a true [enableEventStream] are all there, and
    it sets no other header. *)
Theorem middleware_flags_and_continues (rq : MiddlewareRequest) :
  last (sseSupportMiddleware rq) = Some Next
  /\ count_next (sseSupportMiddleware rq) = 1%nat
  /\ ((exists l c, locals rq = Some l /\ ctx l = Some c
                   /\ enableEventStream c = Some true)
      <-> sseSupportMiddleware rq
          = [SetHeader "x-sse-support" "enabled";
             SetHeader "Access-Control-Expose-Headers" "x-sse-support"; Next])
  /\ (~ (exists l c, locals rq = Some l /\ ctx l = Some c
                     /\ enableEventStream c = Some true)
      <-> sseSupportMiddleware rq = [Next])
  /\ (forall name value, In (SetHeader name value) (sseSupportMiddleware rq) ->
        (name, value) = ("x-sse-support", "enabled")%string
        \/ (name, value) = ("Access-Control-Expose-Headers", "x-sse-support")%string).
Proof.
  unfold sseSupportMiddleware, stream_enabled.
  destruct rq as [lo]. destruct lo as [[co]|];
    [destruct co as [[eo]|]; [destruct eo as [[|]|]|]|]; cbn.
  all: repeat split; try reflexivity; try discriminate.
  all: try (intros _; by eexists _, _).
  all: try (intros (l & c & H1 & H2 & H3); simplify_eq; simpl in *;
            by simplify_eq).
  all: try (intros H; exfalso; apply H; by eexists _, _).
  all: try (intros _ (l & c & H1 & H2 & H3); simplify_eq; simpl in *;
            by simplify_eq).
  all: try (intros name value [H|[H|[H|[]]]]; simplify_eq;
            first [by left | by right]).
  all: try (intros name value [H|[]]; by simplify_eq).
Qed.

Lemma middleware_flags_and_continues_witness :
  sseSupportMiddleware
    {| locals := Some {| ctx := Some {| enableEventStream := Some true |} |} |}
  = [SetHeader "x-sse-support" "enabled";
     SetHeader "Access-Control-Expose-Headers" "x-sse-support"; Next]
  /\ sseSupportMiddleware {| locals := None |} = [Next].
Proof.
  split.
  - apply (middleware_flags_and_continues
             {| locals := Some {| ctx := Some {| enableEventStream := Some true |} |} |}).
    by eexists _, _.
  - apply (middleware_flags_and_continues {| locals := None |}).
    intros (l & c & H & _). discriminate.
Defined.

(** ** The id on the wire and the [Last-Event-ID] header *)








(** ** Payloads of one line *)

Lemma split_single_line (s : string) :
  has_newline s = false -> Js.split_newlines s = [s].
Proof.
  unfold Js.split_newlines, has_newline.
  induction s as [|c s IH]; simpl; [done|].
  intros H. apply orb_false_elim in H as [Hc Hs].
  rewrite Hc, (IH Hs). reflexivity.
Qed.

Lemma render_block (i : Z) (evName : option string) (data : Js.value) :
  render i evName data
  = block_of i evName (Js.split_newlines (payload_text data)).
Proof.
  unfold render, block_of. rewrite <- data_lines_block.
  assert (Hev : (if Js.truthy_str evName
                 then ("event: " ^^ default EmptyString evName) ^^ LF
                 else EmptyString) = event_line evName).
  { destruct evName as [[|a s]|]; reflexivity. }
  rewrite Hev, !append_assoc. reflexivity.
Qed.

(** X18. A text without line break is sent as it is, in one data line: for
    a non-empty string [s] without CR and LF, and for an object whose JSON
    text is such a string, the block is the id line, the event line when
    there is a name, the line [data: s] and an empty line. *)
Theorem single_line_payload (i : Z) (evName : option string) (s : string) :
  has_newline s = false ->
  Js.string_nonempty s = true ->
  render i evName (Js.Str s)
  = "id: " ^^ Js.string_of_Z i ^^ " " ^^ LF
    ^^ event_line evName ^^ "data: " ^^ s ^^ LF ^^ LF
  /\ render i evName (Js.Object s) = render i evName (Js.Str s).
Proof.
  intros Hnl Hne.
  assert (Htext : payload_text (Js.Str s) = s)
    by (unfold payload_text; simpl; by rewrite Hne).
  assert (Hobj : payload_text (Js.Object s) = s)
    by (unfold payload_text; simpl; by rewrite Hne).
  rewrite !render_block, Htext, Hobj, (split_single_line s Hnl).
  split; [|reflexivity]. unfold block_of. cbn [map concat_strings].
  rewrite append_empty_r, !append_assoc. reflexivity.
Qed.

Lemma single_line_payload_witness :
  has_newline "hello" = false
  /\ Js.string_nonempty "hello" = true
  /\ render 5 (Some "ev"%string) (Js.Str "hello")
     = "id: 5 " ^^ LF ^^ "event: ev" ^^ LF ^^ "data: hello" ^^ LF ^^ LF.
Proof.
  split; [reflexivity|]. split; [reflexivity|].
  destruct (single_line_payload 5 (Some "ev"%string) "hello") as (H & _);
    [reflexivity | reflexivity |].
  rewrite H. reflexivity.
Defined.

(** ** The history along a run *)




Lemma drop_to_last {A} (l : list A) (x : A) :
  last l = Some x -> drop (length l - 1) l = [x].
Proof.
  intros H. destruct (last_Some l x) as [Hl _]. destruct (Hl H) as [l' ->].
  rewrite length_app. simpl.
  replace (length l' + 1 - 1)%nat with (length l') by lia.
  apply drop_app_length.
Qed.

(** X20. What is replayed is what was sent: after a publish that is not a
    ping, on a channel that keeps a history, a client without filter that
    reconnects with the id before gets this one message, with the block
    that the live subscribers were written. *)
Theorem replay_matches_live (fuel : nat) (w : World) (data : Js.value)
    (evName : option string) (c : Connection) :
  history_ok (chan w) = true ->
  0 < historySize (options (chan w)) ->
  (2 <= fuel)%nat ->
  Js.truthy data || Js.truthy_str evName = true ->
  events c = None ->
  lastID (req c) = Some (nextID (chan w) - 1) ->
  exists w',
    publish fuel w data evName = Some (Some (nextID (chan w)), w')
    /\ (forall r, calls_on w' r
                  = calls_on w r
                    ++ repeat (ResWrite (render (nextID (chan w)) evName data))
                         (recipients_on r (Some (stored_name evName))
                            (clients (chan w))))
    /\ replayed (chan w') c = [published (nextID (chan w)) data evName]
    /\ map output (replayed (chan w') c) = [render (nextID (chan w)) evName data].
Proof.
  intros Hok Hpos Hfuel Hdata Hev Hk. apply truthy_not_ping in Hdata.
  pose proof (history_ok_fuel _ _ Hok Hfuel) as Hen.
  pose proof (history_ok_inv _ Hok) as (H1 & H2 & H3).
  destruct (publish_nonping_spec fuel w data evName Hdata H1 Hen)
    as (w' & Hrun & Hch & Hcalls & _).
  assert (Hok' : history_ok (chan w') = true)
    by (rewrite Hch; by apply history_ok_push).
  assert (Hlast : last (messages (chan w'))
                  = Some (published (nextID (chan w)) data evName)).
  { rewrite Hch. cbn [messages with_messages]. by apply keep_last_snoc. }
  assert (Hnext : nextID (chan w') = nextID (chan w) + 1) by (by rewrite Hch).
  assert (Hrep : replayed (chan w') c
                 = [published (nextID (chan w)) data evName]).
  { rewrite (replay_after_last_id (chan w') c (nextID (chan w) - 1) Hok' Hev Hk)
      by lia.
    pose proof (history_ok_inv _ Hok') as (_ & _ & H3').
    rewrite (ids_from_after _ _ _ H3'), Hnext.
    replace (Z.to_nat (nextID (chan w) - 1 + 1
                       - (nextID (chan w) + 1
                          - Z.of_nat (length (messages (chan w'))))))
      with (length (messages (chan w')) - 1)%nat by lia.
    by apply drop_to_last. }
  exists w'. split; [exact Hrun|]. split; [exact Hcalls|].
  split; [exact Hrep|]. rewrite Hrep. reflexivity.
Qed.

Lemma replay_matches_live_witness :
  history_ok (chan one_subscriber) = true
  /\ 0 < historySize (options (chan one_subscriber))
  /\ (2 <= 2)%nat
  /\ Js.truthy (Js.Str "a") || Js.truthy_str (Some "foo"%string) = true
  /\ lastID (req {| conn_id := 5; req := header "0"; res := 8; events := None |})
     = Some (nextID (chan one_subscriber) - 1)
  /\ exists w',
       publish 2 one_subscriber (Js.Str "a") (Some "foo"%string)
       = Some (Some (nextID (chan one_subscriber)), w')
       /\ map output
            (replayed (chan w')
               {| conn_id := 5; req := header "0"; res := 8; events := None |})
          = [render (nextID (chan one_subscriber)) (Some "foo"%string) (Js.Str "a")].
Proof.
  split; [reflexivity|]. split; [simpl; lia|]. split; [lia|].
  split; [reflexivity|]. split; [reflexivity|].
  destruct (replay_matches_live 2 one_subscriber (Js.Str "a") (Some "foo"%string)
              {| conn_id := 5; req := header "0"; res := 8; events := None |})
    as (w' & Hrun & _ & _ & Hout);
    [reflexivity | simpl; lia | lia | reflexivity | reflexivity | reflexivity |].
  exists w'. split; [exact Hrun | exact Hout].
Defined.

(** ** Falsy payloads *)

(** X21. A falsy payload is sent as an empty one: with [undefined],
    [false], [0] or the empty string as data, the block has the single
    data line [data: ] whatever the value was; [null] is the exception,
    it is sent as the text [null]. *)
Theorem falsy_payload_is_empty (i : Z) (evName : option string) (data : Js.value) :
  Js.truthy data = false ->
  (data <> Js.Null ->
   render i evName data
   = "id: " ^^ Js.string_of_Z i ^^ " " ^^ LF
     ^^ event_line evName ^^ "data: " ^^ LF ^^ LF)
  /\ (data = Js.Null ->
      render i evName data
      = "id: " ^^ Js.string_of_Z i ^^ " " ^^ LF
        ^^ event_line evName ^^ "data: null" ^^ LF ^^ LF).
Proof.
  intros Hfalsy. rewrite render_block. split.
  - intros Hnull.
    assert (Htext : payload_text data = EmptyString).
    { unfold payload_text. destruct data as [| |b|n|s|json]; try done; simpl in *.
      - by rewrite Hfalsy.
      - by rewrite Hfalsy.
      - by rewrite Hfalsy. }
    rewrite Htext. reflexivity.
  - intros ->. reflexivity.
Qed.

Lemma falsy_payload_is_empty_witness :
  Js.truthy (Js.Num 0) = false
  /\ render 1 (Some "count"%string) (Js.Num 0)
     = "id: 1 " ^^ LF ^^ "event: count" ^^ LF ^^ "data: " ^^ LF ^^ LF.
Proof.
  split; [reflexivity|].
  destruct (falsy_payload_is_empty 1 (Some "count"%string) (Js.Num 0)) as (H & _);
    [reflexivity|].
  rewrite H by discriminate. reflexivity.
Defined.
